(** * MediaPipeTracker: the [useMediaPipe] hook

    A shallow embedding of [src/hooks/useMediaPipe.ts]: the aspect-fit
    computation and the canvas painting done by [onResults] and
    [drawLandmarks], and the session controller ([initializeMediaPipe],
    [startCamera], [stopCamera]).

    JavaScript numbers are kept abstract behind the interface [JSNumber],
    which lists the operations the hook applies to them.  It has two
    instances: [Exact] reads every operation in the rationals (no rounding,
    no NaN, no infinities); [Binary64] reads them in the kernel's IEEE 754
    doubles, which is what a JavaScript engine computes, and evaluates the
    code on concrete inputs bit for bit.  Statements that need no law of
    arithmetic are proved for every instance; those that need the order of
    the rationals are proved in [Exact].

    The 2D context is a log of the calls and property writes made on it.
    The calls that can throw do so as a browser's context does:
    [createRadialGradient] and [arc] refuse a negative radius,
    [createRadialGradient] an argument that is not finite, and
    [addColorStop] a colour that does not parse. *)

From Stdlib Require Import ZArith QArith Qminmax Lqa Lia List String Bool.
From Stdlib Require Import Floats Uint63.
Import ListNotations.

Set Implicit Arguments.

(** ** Numbers *)

Declare Scope js_scope.
Delimit Scope js_scope with js.

Class JSNumber (N : Type) : Type := {
  lit      : Q -> N;          (* a numeric literal of the source *)
  add      : N -> N -> N;     (* a + b *)
  sub      : N -> N -> N;     (* a - b *)
  mul      : N -> N -> N;     (* a * b *)
  div      : N -> N -> N;     (* a / b *)
  rem      : N -> N -> N;     (* a % b *)
  gtb      : N -> N -> bool;  (* a > b *)
  truthy   : N -> bool;       (* ToBoolean: false on 0 and NaN *)
  finite   : N -> bool;       (* neither NaN nor an infinity *)
  math_max : N -> N -> N;     (* Math.max(a, b) *)
  math_min : N -> N -> N;     (* Math.min(a, b) *)
  math_PI  : N                (* Math.PI *)
}.

Infix "+" := add : js_scope.
Infix "-" := sub : js_scope.
Infix "*" := mul : js_scope.
Infix "/" := div : js_scope.
Infix ">?" := gtb (at level 70, no associativity) : js_scope.

(** *** Exact arithmetic *)

Module ExactNum.

(** [a > b] *)
Definition gtb (a b : Q) : bool := negb (Qle_bool a b).

(** The integer part of [q], rounding towards zero. *)
Definition trunc (q : Q) : Z := Z.quot (Qnum q) (Zpos (Qden q)).

(** [a % b]: the remainder has the sign of the dividend. *)
Definition rem (a b : Q) : Q := a - b * inject_Z (trunc (a / b)).

Definition truthy (a : Q) : bool := negb (Qeq_bool a 0).

(** The rational that the double [Math.PI] denotes. *)
Definition PI : Q := 884279719003555 # 281474976710656.

End ExactNum.

#[export] Instance Exact : JSNumber Q := {|
  lit q := q;
  add := Qplus;
  sub := Qminus;
  mul := Qmult;
  div := Qdiv;
  rem := ExactNum.rem;
  gtb := ExactNum.gtb;
  truthy := ExactNum.truthy;
  finite _ := true;
  math_max := Qmax;
  math_min := Qmin;
  math_PI := ExactNum.PI
|}.

(** *** IEEE 754 binary64 *)

Module Double.

(** The double nearest to an integer of magnitude below 2^63. *)
Definition of_Z (z : Z) : float :=
  match z with
  | Z0 => PrimFloat.zero
  | Zpos _ => PrimFloat.of_uint63 (Uint63.of_Z z)
  | Zneg p => PrimFloat.opp (PrimFloat.of_uint63 (Uint63.of_Z (Zpos p)))
  end.

(** A decimal literal [n/d] denotes the double nearest to it; division is
    correctly rounded, so dividing [n] by [d] yields that double whenever
    both are themselves doubles. *)
Definition lit (q : Q) : float :=
  PrimFloat.div (of_Z (Qnum q)) (of_Z (Zpos (Qden q))).

Definition gtb (a b : float) : bool := PrimFloat.ltb b a.

Definition truthy (a : float) : bool :=
  negb (PrimFloat.is_nan a || PrimFloat.is_zero a).

(** [a % b] (fmod): exact on the integer mantissas once both operands are
    brought to a common exponent; the result has the sign of [a]. *)
Definition rem (a b : float) : float :=
  match Prim2SF a, Prim2SF b with
  | S754_nan, _ | _, S754_nan => PrimFloat.nan
  | S754_infinity _, _ | _, S754_zero _ => PrimFloat.nan
  | S754_zero _, _ | _, S754_infinity _ => a
  | S754_finite sa ma ea, S754_finite _ mb eb =>
      let e := Z.min ea eb in
      let r := Z.modulo (Zpos ma * 2 ^ (ea - e)) (Zpos mb * 2 ^ (eb - e)) in
      let m := Z.ldexp (PrimFloat.of_uint63 (Uint63.of_Z r)) e in
      if sa then PrimFloat.opp m else m
  end.

(** [Math.max]: NaN if either argument is, and [+0] above [-0]. *)
Definition max (a b : float) : float :=
  if PrimFloat.is_nan a then a else
  if PrimFloat.is_nan b then b else
  if PrimFloat.ltb a b then b else
  if PrimFloat.ltb b a then a else
  if PrimFloat.get_sign a then b else a.

(** [Math.min]: NaN if either argument is, and [-0] below [+0]. *)
Definition min (a b : float) : float :=
  if PrimFloat.is_nan a then a else
  if PrimFloat.is_nan b then b else
  if PrimFloat.ltb a b then a else
  if PrimFloat.ltb b a then b else
  if PrimFloat.get_sign a then a else b.

Definition PI : float := 0x1.921fb54442d18p+1%float.

End Double.

#[export] Instance Binary64 : JSNumber float := {|
  lit := Double.lit;
  add := PrimFloat.add;
  sub := PrimFloat.sub;
  mul := PrimFloat.mul;
  div := PrimFloat.div;
  rem := Double.rem;
  gtb := Double.gtb;
  truthy := Double.truthy;
  finite := PrimFloat.is_finite;
  math_max := Double.max;
  math_min := Double.min;
  math_PI := Double.PI
|}.

(** ** The fit transform (onResults, lines 45-63) *)

Record FitTransform (N : Type) : Type := {
  scaleX : N;
  scaleY : N;
  offsetX : N;
  offsetY : N
}.

Section Fit.
Context {N : Type} `{JSNumber N}.
Local Open Scope js_scope.

(** The test of line 51, [videoAspect > canvasAspect]: when it holds the
    video is fitted to the canvas height, otherwise to the canvas width. *)
Definition fitsToHeight (videoWidth videoHeight canvasWidth canvasHeight : N)
  : bool :=
  (videoWidth / videoHeight) >? (canvasWidth / canvasHeight).

Definition fitTransform (videoWidth videoHeight canvasWidth canvasHeight : N)
  : FitTransform N :=
  let videoAspect := videoWidth / videoHeight in
  let canvasAspect := canvasWidth / canvasHeight in
  if videoAspect >? canvasAspect then
    let scaleY := canvasHeight in
    let scaleX := canvasHeight * videoAspect in
    {| scaleX := scaleX; scaleY := scaleY;
       offsetX := (canvasWidth - scaleX) / lit 2; offsetY := lit 0 |}
  else
    let scaleX := canvasWidth in
    let scaleY := canvasWidth / videoAspect in
    {| scaleX := scaleX; scaleY := scaleY;
       offsetX := lit 0; offsetY := (canvasHeight - scaleY) / lit 2 |}.

(** Where a normalized coordinate lands on the canvas (lines 161-164 and
    174-175). *)
Definition toCanvasX (t : FitTransform N) (x : N) : N := x * scaleX t + offsetX t.
Definition toCanvasY (t : FitTransform N) (y : N) : N := y * scaleY t + offsetY t.

End Fit.

(** ** Data model (lines 5-16) *)

(** A slot of a JavaScript array: an index may be a hole, may hold
    [undefined], or may hold a value.  Reading either of the first two, or an
    index past the end, yields [undefined]; iteration ([forEach], [map])
    skips holes but visits [undefined]. *)
Inductive Slot (A : Type) : Type :=
| Hole
| Undef
| Elem (a : A).
Arguments Hole {A}.
Arguments Undef {A}.

Record Landmark (N : Type) : Type := {
  x : N;
  y : N;
  z : N;
  visibility : option N
}.

Record HandDetectionResult (N : Type) : Type := {
  landmarks : list (Slot (Landmark N));
  confidence : N;
  handedness : string
}.

(** [arr[i]]: [None] stands for [undefined]. *)
Definition element {A : Type} (arr : list (Slot A)) (i : nat) : option A :=
  match nth_error arr i with
  | Some (Elem a) => Some a
  | _ => None
  end.

(** ** The canvas *)

(** CSS colours, kept as terms instead of the strings
    [hsla(h, s%, l%, a)] and [rgba(r, g, b, a)] the source interpolates. *)
Inductive Color (N : Type) : Type :=
| Hsla (h s l a : N)
| Rgba (r g b a : N).

(** The value of [createRadialGradient(x0, y0, r0, x1, y1, r1)] after its
    [addColorStop] calls. *)
Record RadialGradient (N : Type) : Type := {
  gx0 : N; gy0 : N; gr0 : N;
  gx1 : N; gy1 : N; gr1 : N;
  colorStops : list (N * Color N)
}.

(** The calls and property writes the hook performs on the 2D context,
    each with the arguments it was given. *)
Inductive CanvasOp (N : Type) : Type :=
| SetStrokeStyle (c : Color N)
| SetFillStyle (c : Color N)
| SetFillGradient (g : RadialGradient N)
| SetLineWidth (w : N)
| SetShadowColor (c : Color N)
| SetShadowBlur (b : N)
| SetFontBoldPx (px : N)          (* font = `bold ${px}px system-ui, sans-serif` *)
| SetTextAlignCenter
| SetTextBaselineMiddle
| BeginPath
| MoveTo (px py : N)
| LineTo (px py : N)
| Stroke
| Arc (cx cy radius startAngle endAngle : N)
| Fill
| FillRect (rx ry w h : N)
| FillText (index : nat) (tx ty : N). (* fillText(index.toString(), tx, ty) *)
Arguments SetTextAlignCenter {N}.
Arguments SetTextBaselineMiddle {N}.
Arguments BeginPath {N}.
Arguments Stroke {N}.
Arguments Fill {N}.

(** ** Painting: a log of context operations, and exceptions *)

Inductive JSError : Type :=
| TypeError        (* reading a property of [undefined]; passing NaN or an
                      infinity where the context wants a finite number *)
| IndexSizeError   (* a negative radius *)
| SyntaxError.     (* a colour that does not parse *)

Inductive Completion (A : Type) : Type :=
| Normal (a : A)
| Throw (e : JSError).
Arguments Throw {A}.

(** A computation that appends to the log of operations performed on the
    context and either completes or throws; what was painted before a throw
    stays painted, and a call that throws is not logged. *)
Definition Paint (N A : Type) : Type :=
  list (CanvasOp N) -> Completion A * list (CanvasOp N).

Section PaintMonad.
Context {N : Type}.

Definition ret {A : Type} (a : A) : Paint N A := fun log => (Normal a, log).

Definition throw {A : Type} (e : JSError) : Paint N A := fun log => (Throw e, log).

Definition bind {A B : Type} (m : Paint N A) (k : A -> Paint N B) : Paint N B :=
  fun log =>
    match m log with
    | (Normal a, log') => k a log'
    | (Throw e, log') => (Throw e, log')
    end.

Definition emit (op : CanvasOp N) : Paint N unit :=
  fun log => (Normal tt, log ++ [op]).

(** [o.f] where [o] may be [undefined]. *)
Definition prop {A B : Type} (o : option A) (f : A -> B) : Paint N B :=
  match o with
  | Some a => ret (f a)
  | None => throw TypeError
  end.

(** [arr.forEach((a, i) => body)] on an array without holes, the first
    element having index [i]. *)
Fixpoint forEachFrom {A : Type} (body : A -> nat -> Paint N unit)
         (arr : list A) (i : nat) : Paint N unit :=
  match arr with
  | [] => ret tt
  | a :: rest => bind (body a i) (fun _ => forEachFrom body rest (S i))
  end.

(** [arr.forEach] on an array that may have holes: holes are skipped, an
    [undefined] element is passed to the callback as [None]. *)
Fixpoint forEachSlotFrom {A : Type} (body : option A -> nat -> Paint N unit)
         (arr : list (Slot A)) (i : nat) : Paint N unit :=
  match arr with
  | [] => ret tt
  | Hole :: rest => forEachSlotFrom body rest (S i)
  | Undef :: rest =>
      bind (body None i) (fun _ => forEachSlotFrom body rest (S i))
  | Elem a :: rest =>
      bind (body (Some a) i) (fun _ => forEachSlotFrom body rest (S i))
  end.

End PaintMonad.

Notation "m ;; k" := (bind m (fun _ => k))
  (at level 61, right associativity) : js_scope.
Notation "v <- m ;; k" := (bind m (fun v => k))
  (at level 61, m at next level, right associativity) : js_scope.

(** ** drawLandmarks (lines 130-215) *)

(** The connection list of lines 139-146. *)
Definition connections : list (nat * nat) :=
  [ (0, 1); (1, 2); (2, 3); (3, 4);
    (0, 5); (5, 6); (6, 7); (7, 8);
    (5, 9); (9, 10); (10, 11); (11, 12);
    (9, 13); (13, 14); (14, 15); (15, 16);
    (13, 17); (17, 18); (18, 19); (19, 20);
    (0, 17) ]%nat.

Section Draw.
Context {N : Type} `{JSNumber N}.
Local Open Scope js_scope.

Definition ofNat (n : nat) : N := lit (inject_Z (Z.of_nat n)).

(** [a || b] on an optional number: [b] when [a] is [undefined], [0] or
    NaN. *)
Definition orElse (a : option N) (b : N) : N :=
  match a with
  | Some v => if truthy v then v else b
  | None => b
  end.

(** Lines 158-170: the edges of one hand. *)
Definition drawConnections (hand : HandDetectionResult N)
           (scaleX scaleY offsetX offsetY : N) : Paint N unit :=
  emit BeginPath ;;
  forEachFrom (fun (c : nat * nat) (_ : nat) =>
    let '(start, end_) := c in
    match element (landmarks hand) start, element (landmarks hand) end_ with
    | Some _, Some _ =>
        sx <- prop (element (landmarks hand) start) (@x N) ;;
        let x1 := sx * scaleX + offsetX in
        sy <- prop (element (landmarks hand) start) (@y N) ;;
        let y1 := sy * scaleY + offsetY in
        ex <- prop (element (landmarks hand) end_) (@x N) ;;
        let x2 := ex * scaleX + offsetX in
        ey <- prop (element (landmarks hand) end_) (@y N) ;;
        let y2 := ey * scaleY + offsetY in
        emit (MoveTo x1 y1) ;;
        emit (LineTo x2 y2)
    | _, _ => ret tt
    end) connections 0 ;;
  emit Stroke.

(** Line 176. *)
Definition effectiveVisibility (landmark : Landmark N) : N :=
  orElse (visibility landmark) (lit 1).

(** [a < 0]: false on [-0] and on NaN. *)
Definition negative (a : N) : bool := lit 0 >? a.

(** Whether the string built for a colour is a CSS colour.  The source
    interpolates numbers into [hsla(...)] and [rgba(...)]; a finite number
    prints as a CSS number, NaN and the infinities do not. *)
Definition parses (c : Color N) : bool :=
  match c with
  | Hsla h s l a => finite h && finite s && finite l && finite a
  | Rgba r g b a => finite r && finite g && finite b && finite a
  end.

(** [ctx.createRadialGradient(x0, y0, r0, x1, y1, r1)]: a [TypeError] when
    an argument is not finite, an [IndexSizeError] when a radius is
    negative; the gradient has no colour stop yet. *)
Definition createRadialGradient (x0 y0 r0 x1 y1 r1 : N)
  : Paint N (RadialGradient N) :=
  if negb (finite x0 && finite y0 && finite r0
           && finite x1 && finite y1 && finite r1) then throw TypeError
  else if negative r0 || negative r1 then throw IndexSizeError
  else ret {| gx0 := x0; gy0 := y0; gr0 := r0;
              gx1 := x1; gy1 := y1; gr1 := r1; colorStops := [] |}.

(** [gradient.addColorStop(offset, color)], for an offset within [0, 1]
    (the source passes the literals 0, 0.7 and 1): a [SyntaxError] when
    the colour does not parse. *)
Definition addColorStop (gradient : RadialGradient N) (offset : N)
           (color : Color N) : Paint N (RadialGradient N) :=
  if parses color then
    ret {| gx0 := gx0 gradient; gy0 := gy0 gradient; gr0 := gr0 gradient;
           gx1 := gx1 gradient; gy1 := gy1 gradient; gr1 := gr1 gradient;
           colorStops := colorStops gradient ++ [(offset, color)] |}
  else throw SyntaxError.

(** [ctx.arc(cx, cy, radius, startAngle, endAngle)]: the call does nothing
    when an argument is not finite, and is an [IndexSizeError] when the
    radius is negative. *)
Definition arc (cx cy radius startAngle endAngle : N) : Paint N unit :=
  if finite cx && finite cy && finite radius
     && finite startAngle && finite endAngle && negative radius
  then throw IndexSizeError
  else emit (Arc cx cy radius startAngle endAngle).

(** Lines 174-209: the disc of one landmark, for a landmark that is an
    object.  The other calls and property writes never throw: a path or
    text call with a coordinate that is not finite does nothing, and a
    property write with a value the context refuses is ignored. *)
Definition drawDisc (landmark : Landmark N) (index : nat) (time baseHue : N)
           (scaleX scaleY offsetX offsetY : N) : Paint N unit :=
  let px := x landmark * scaleX + offsetX in
  let py := y landmark * scaleY + offsetY in
  let visibility := effectiveVisibility landmark in
  let baseRadius := math_max (lit 8) (math_min scaleX scaleY / lit 40) in
  let radius := baseRadius * (lit 1 + z landmark * lit 1.5) * visibility in
  let hue := rem (baseHue + ofNat index * lit 15 + time * lit 20) (lit 360) in
  g0 <- createRadialGradient px py (lit 0) px py (radius * lit 1.5) ;;
  g1 <- addColorStop g0 (lit 0) (Hsla hue (lit 90) (lit 90) visibility) ;;
  g2 <- addColorStop g1 (lit 0.7)
                     (Hsla hue (lit 85) (lit 75) (visibility * lit 0.8)) ;;
  gradient <- addColorStop g2 (lit 1)
                           (Hsla hue (lit 80) (lit 50) (visibility * lit 0.2)) ;;
  emit (SetShadowColor (Hsla hue (lit 90) (lit 70) (lit 0.8))) ;;
  emit (SetShadowBlur radius) ;;
  emit (SetFillGradient gradient) ;;
  emit BeginPath ;;
  arc px py radius (lit 0) (lit 2 * math_PI) ;;
  emit Fill ;;
  if radius >? lit 10 then
    emit (SetFillStyle (Rgba (lit 255) (lit 255) (lit 255) (visibility * lit 0.9))) ;;
    emit (SetFontBoldPx (math_max (lit 12) (radius / lit 2))) ;;
    emit (SetShadowColor (Rgba (lit 0) (lit 0) (lit 0) (lit 0.8))) ;;
    emit (SetShadowBlur (lit 4)) ;;
    emit SetTextAlignCenter ;;
    emit SetTextBaselineMiddle ;;
    emit (FillText index px py)
  else ret tt.

(** Lines 173-210: the callback of [hand.landmarks.forEach]; its first
    statement reads [landmark.x]. *)
Definition drawDiscs (hand : HandDetectionResult N) (time baseHue : N)
           (scaleX scaleY offsetX offsetY : N) : Paint N unit :=
  forEachSlotFrom (fun (landmark : option (Landmark N)) (index : nat) =>
    l <- prop landmark (fun l => l) ;;
    drawDisc l index time baseHue scaleX scaleY offsetX offsetY)
    (landmarks hand) 0.

(** [dateNow handIndex] is what [Date.now()] returns when read for the
    hand of that index (line 149). *)
Definition drawLandmarks (dateNow : nat -> N)
           (hands : list (HandDetectionResult N))
           (scaleX scaleY offsetX offsetY : N) : Paint N unit :=
  forEachFrom (fun (hand : HandDetectionResult N) (handIndex : nat) =>
    let time := dateNow handIndex * lit 0.001 in
    let baseHue := rem (ofNat handIndex * lit 120 + time * lit 30) (lit 360) in
    emit (SetStrokeStyle (Hsla baseHue (lit 80) (lit 70) (lit 0.9))) ;;
    emit (SetLineWidth (math_max (lit 3) (scaleX / lit 200))) ;;
    emit (SetShadowColor (Hsla baseHue (lit 80) (lit 70) (lit 0.6))) ;;
    emit (SetShadowBlur (math_max (lit 8) (scaleX / lit 100))) ;;
    drawConnections hand scaleX scaleY offsetX offsetY ;;
    drawDiscs hand time baseHue scaleX scaleY offsetX offsetY ;;
    emit (SetShadowBlur (lit 0))) hands 0.

End Draw.

(** ** The hook's state (lines 19-27) *)

Record HTMLVideoElement (N : Type) : Type := {
  videoWidth : N;
  videoHeight : N
}.

(** [context2d] is what [getContext('2d')] returns: [None] for [null],
    otherwise the context, given by the operations performed on it so far.
    That log is a history: it is kept when [width] or [height] is assigned,
    although the assignment also clears the bitmap. *)
Record HTMLCanvasElement (N : Type) : Type := {
  width : N;
  height : N;
  context2d : option (list (CanvasOp N))
}.

Record Window (N : Type) : Type := {
  innerWidth : N;
  innerHeight : N
}.

(** The detector, with the options of lines 109-114. *)
Record Hands (N : Type) : Type := {
  maxNumHands : N;
  modelComplexity : N;
  minDetectionConfidence : N;
  minTrackingConfidence : N
}.

(** The camera source, with the capture size of lines 231-232. *)
Record Camera (N : Type) : Type := {
  captureWidth : N;
  captureHeight : N
}.

Record Hook (N : Type) : Type := {
  videoRef : option (HTMLVideoElement N);
  canvasRef : option (HTMLCanvasElement N);
  handsRef : option (Hands N);
  cameraRef : option (Camera N);
  isInitialized : bool;
  isStreaming : bool;
  detectionResults : list (HandDetectionResult N);
  error : string
}.

(** What the detector hands to [onResults]. *)
Record Handedness (N : Type) : Type := {
  score : N;
  label : string
}.

Record Results (N : Type) : Type := {
  multiHandLandmarks : option (list (list (Slot (Landmark N))));
  multiHandedness : option (list (Handedness N))
}.

Section Setters.
Context {N : Type}.

Definition setCanvas (st : Hook N) (c : option (HTMLCanvasElement N)) : Hook N :=
  {| videoRef := videoRef st; canvasRef := c; handsRef := handsRef st;
     cameraRef := cameraRef st; isInitialized := isInitialized st;
     isStreaming := isStreaming st; detectionResults := detectionResults st;
     error := error st |}.

Definition setHands (st : Hook N) (h : option (Hands N)) : Hook N :=
  {| videoRef := videoRef st; canvasRef := canvasRef st; handsRef := h;
     cameraRef := cameraRef st; isInitialized := isInitialized st;
     isStreaming := isStreaming st; detectionResults := detectionResults st;
     error := error st |}.

Definition setCamera (st : Hook N) (c : option (Camera N)) : Hook N :=
  {| videoRef := videoRef st; canvasRef := canvasRef st; handsRef := handsRef st;
     cameraRef := c; isInitialized := isInitialized st;
     isStreaming := isStreaming st; detectionResults := detectionResults st;
     error := error st |}.

Definition setIsInitialized (st : Hook N) (b : bool) : Hook N :=
  {| videoRef := videoRef st; canvasRef := canvasRef st; handsRef := handsRef st;
     cameraRef := cameraRef st; isInitialized := b;
     isStreaming := isStreaming st; detectionResults := detectionResults st;
     error := error st |}.

Definition setIsStreaming (st : Hook N) (b : bool) : Hook N :=
  {| videoRef := videoRef st; canvasRef := canvasRef st; handsRef := handsRef st;
     cameraRef := cameraRef st; isInitialized := isInitialized st;
     isStreaming := b; detectionResults := detectionResults st;
     error := error st |}.

Definition setDetectionResults (st : Hook N)
           (r : list (HandDetectionResult N)) : Hook N :=
  {| videoRef := videoRef st; canvasRef := canvasRef st; handsRef := handsRef st;
     cameraRef := cameraRef st; isInitialized := isInitialized st;
     isStreaming := isStreaming st; detectionResults := r;
     error := error st |}.

Definition setError (st : Hook N) (e : string) : Hook N :=
  {| videoRef := videoRef st; canvasRef := canvasRef st; handsRef := handsRef st;
     cameraRef := cameraRef st; isInitialized := isInitialized st;
     isStreaming := isStreaming st; detectionResults := detectionResults st;
     error := e |}.

End Setters.

(** ** onResults (lines 30-98) *)

Section OnResults.
Context {N : Type} `{JSNumber N}.
Local Open Scope js_scope.

(** Lines 66-73: the backdrop.  The width and height of a canvas are
    unsigned integers, so the centre and the radius of this gradient are
    finite and not negative and its two stops are literal colours:
    creating it cannot throw. *)
Definition paintBackground (canvasWidth canvasHeight : N) : Paint N unit :=
  let gradient :=
    {| gx0 := canvasWidth / lit 2; gy0 := canvasHeight / lit 2; gr0 := lit 0;
       gx1 := canvasWidth / lit 2; gy1 := canvasHeight / lit 2;
       gr1 := math_max canvasWidth canvasHeight / lit 2;
       colorStops :=
         [ (lit 0, Rgba (lit 30) (lit 20) (lit 60) (lit 0.95));
           (lit 1, Rgba (lit 10) (lit 10) (lit 30) (lit 0.98)) ] |} in
  emit (SetFillGradient gradient) ;;
  emit (FillRect (lit 0) (lit 0) canvasWidth canvasHeight).

(** Lines 84-89: [landmarks.map(landmark => ({...}))]; holes stay holes,
    and reading [landmark.x] of an [undefined] element throws. *)
Fixpoint copyLandmarks (arr : list (Slot (Landmark N)))
  : Completion (list (Slot (Landmark N))) :=
  match arr with
  | [] => Normal []
  | Hole :: rest =>
      match copyLandmarks rest with
      | Normal rest' => Normal (Hole :: rest')
      | Throw e => Throw e
      end
  | Undef :: _ => Throw TypeError
  | Elem l :: rest =>
      let l' := {| x := x l; y := y l; z := z l; visibility := visibility l |} in
      match copyLandmarks rest with
      | Normal rest' => Normal (Elem l' :: rest')
      | Throw e => Throw e
      end
  end.

(** [s || 'Unknown'] on an optional string. *)
Definition labelOrUnknown (s : option string) : string :=
  match s with
  | Some EmptyString | None => "Unknown"
  | Some s' => s'
  end.

(** Lines 79-93: the callback of [multiHandLandmarks.forEach], pushing onto
    [detectedHands]; the detector's list of hands has no holes. *)
Fixpoint collectHandsFrom (hands : list (list (Slot (Landmark N))))
         (multiHandedness : list (Handedness N)) (index : nat)
  : Completion (list (HandDetectionResult N)) :=
  match hands with
  | [] => Normal []
  | lms :: rest =>
      let handedness := nth_error multiHandedness index in
      let confidence := orElse (option_map (@score N) handedness) (lit 0) in
      match copyLandmarks lms with
      | Throw e => Throw e
      | Normal lms' =>
          let hand :=
            {| landmarks := lms'; confidence := confidence;
               handedness := labelOrUnknown (option_map (@label N) handedness) |} in
          match collectHandsFrom rest multiHandedness (S index) with
          | Normal more => Normal (hand :: more)
          | Throw e => Throw e
          end
      end
  end.

(** Lines 76-94. *)
Definition collectHands (results : Results N)
  : Completion (list (HandDetectionResult N)) :=
  match multiHandLandmarks results, multiHandedness results with
  | Some hands, Some handednesses => collectHandsFrom hands handednesses 0
  | _, _ => Normal []
  end.

Definition onResults (window : Window N) (dateNow : nat -> N)
           (results : Results N) (st : Hook N) : Completion unit * Hook N :=
  match canvasRef st with
  | None => (Normal tt, st)
  | Some canvas =>
      match context2d canvas with
      | None => (Normal tt, st)
      | Some ctx =>
          let resized ctx' :=
            setCanvas st (Some {| width := innerWidth window;
                                  height := innerHeight window;
                                  context2d := Some ctx' |}) in
          let canvasWidth := innerWidth window in
          let canvasHeight := innerHeight window in
          match videoRef st with
          | None => (Normal tt, resized ctx)
          | Some video =>
              if negb (truthy (videoWidth video))
                 || negb (truthy (videoHeight video))
              then (Normal tt, resized ctx)
              else
                let t := fitTransform (videoWidth video) (videoHeight video)
                                      canvasWidth canvasHeight in
                let ctx1 := snd (paintBackground canvasWidth canvasHeight ctx) in
                match collectHands results with
                | Throw e => (Throw e, resized ctx1)
                | Normal detectedHands =>
                    let '(c, ctx2) :=
                      drawLandmarks dateNow detectedHands
                        (scaleX t) (scaleY t) (offsetX t) (offsetY t) ctx1 in
                    (c, setDetectionResults (resized ctx2) detectedHands)
                end
          end
      end
  end.

End OnResults.

(** ** Session controller (lines 101-127 and 218-253) *)

(** What the outside world does when the hook constructs the detector or
    the camera. *)
Inductive Outcome : Type :=
| Succeeds
| Throws.

Section Session.
Context {N : Type} `{JSNumber N}.

(** Lines 101-127.  [detector] tells whether constructing and configuring
    [Hands] throws. *)
Definition initializeMediaPipe (detector : Outcome) (st : Hook N) : Hook N :=
  match detector with
  | Succeeds =>
      let hands :=
        {| maxNumHands := lit 2; modelComplexity := lit 1;
           minDetectionConfidence := lit 0.5;
           minTrackingConfidence := lit 0.5 |} in
      setError (setIsInitialized (setHands st (Some hands)) true) EmptyString
  | Throws => setError st "MediaPipeの初期化に失敗しました"
  end.

(** Lines 218-243.  [camera] tells whether [new Camera] and
    [camera.start()] go through or one of them throws. *)
Definition startCamera (detector camera : Outcome) (st : Hook N) : Hook N :=
  match handsRef st, videoRef st with
  | Some _, Some _ =>
      match camera with
      | Succeeds =>
          let cam := {| captureWidth := lit 1280; captureHeight := lit 720 |} in
          setError (setIsStreaming (setCamera st (Some cam)) true) EmptyString
      | Throws => setError st "カメラの開始に失敗しました"
      end
  | _, _ => initializeMediaPipe detector st
  end.

(** Lines 226-230: the camera's per-frame callback forwards the frame to
    the detector, which answers by calling [onResults] (lines 116-118) with
    what it [detected] in the frame. *)
Definition onFrame (window : Window N) (dateNow : nat -> N)
           (detected : Results N) (st : Hook N) : Completion unit * Hook N :=
  match handsRef st, videoRef st with
  | Some _, Some _ => onResults window dateNow detected st
  | _, _ => (Normal tt, st)
  end.

(** Lines 246-253. *)
Definition stopCamera (st : Hook N) : Hook N :=
  let st' :=
    match cameraRef st with
    | Some _ => setCamera st None
    | None => st
    end in
  setDetectionResults (setIsStreaming st' false) [].

(** The state [useMediaPipe] starts in, once the component has mounted
    its video and canvas elements. *)
Definition mounted (video : HTMLVideoElement N) (canvas : HTMLCanvasElement N)
  : Hook N :=
  {| videoRef := Some video; canvasRef := Some canvas; handsRef := None;
     cameraRef := None; isInitialized := false; isStreaming := false;
     detectionResults := []; error := EmptyString |}.

End Session.

(** ** Properties named by the specification *)

Section FitProperties.
Local Open Scope Q_scope.

(** A canvas point lies inside the canvas rectangle. *)
Definition withinCanvas (canvasWidth canvasHeight px py : Q) : Prop :=
  (0 <= px /\ px <= canvasWidth) /\ (0 <= py /\ py <= canvasHeight).

(** The transform shows the whole video: every normalized coordinate lands
    inside the canvas, and exactly one offset is zero while the other is
    non-negative. *)
Definition neverCrops (videoWidth videoHeight canvasWidth canvasHeight : Q)
  : Prop :=
  let t := fitTransform videoWidth videoHeight canvasWidth canvasHeight in
  (forall u v : Q, 0 <= u <= 1 -> 0 <= v <= 1 ->
     withinCanvas canvasWidth canvasHeight (toCanvasX t u) (toCanvasY t v))
  /\ ((offsetX t == 0 /\ ~ offsetY t == 0 /\ 0 <= offsetY t)
      \/ (offsetY t == 0 /\ ~ offsetX t == 0 /\ 0 <= offsetX t)).

(** The transform fills the whole canvas: the image of the unit square,
    the rectangle from [(toCanvasX 0, toCanvasY 0)] to
    [(toCanvasX 1, toCanvasY 1)], contains the canvas rectangle. *)
Definition coversCanvas (canvasWidth canvasHeight : Q) (t : FitTransform Q)
  : Prop :=
  (toCanvasX t 0 <= 0 /\ canvasWidth <= toCanvasX t 1)
  /\ (toCanvasY t 0 <= 0 /\ canvasHeight <= toCanvasY t 1).

End FitProperties.

Section FitOnDoubles.
Local Open Scope float_scope.

(** The cover property read on the doubles computed for integer sizes:
    unless the two aspect ratios are equal, the fitted axis has offset
    zero, the other offset is negative, and the image of the unit square
    contains the canvas rectangle. *)
Definition coversOnDoubles (vw vh cw ch : Z) : bool :=
  let t := fitTransform (Double.of_Z vw) (Double.of_Z vh)
                        (Double.of_Z cw) (Double.of_Z ch) in
  (vw * ch =? cw * vh)%Z
  || ((toCanvasX t 0 <=? 0) && (Double.of_Z cw <=? toCanvasX t 1)
      && (toCanvasY t 0 <=? 0) && (Double.of_Z ch <=? toCanvasY t 1)
      && (if fitsToHeight (Double.of_Z vw) (Double.of_Z vh)
                          (Double.of_Z cw) (Double.of_Z ch)
          then (offsetY t =? 0) && (offsetX t <? 0)
          else (offsetX t =? 0) && (offsetY t <? 0))).

(** Camera frame sizes, landscape and portrait, and a grid of window
    sizes from 320x240 to 2560x1440 in steps of 16. *)
Definition frameSizes : list (Z * Z) :=
  [ (1280, 720); (640, 480); (352, 288); (720, 1280); (1920, 1080) ]%Z.

Definition windowSizes : list (Z * Z) :=
  list_prod (map (fun i => 320 + 16 * Z.of_nat i)%Z (seq 0 141))
            (map (fun i => 240 + 16 * Z.of_nat i)%Z (seq 0 76)).

End FitOnDoubles.

Section ConnectionProperties.

(** The edges joining consecutive landmarks of a finger. *)
Fixpoint chain (joints : list nat) : list (nat * nat) :=
  match joints with
  | a :: (b :: _) as rest => (a, b) :: chain rest
  | _ => []
  end.

Definition thumb : list (nat * nat) := chain [0; 1; 2; 3; 4]%nat.
Definition indexFinger : list (nat * nat) := chain [0; 5; 6; 7; 8]%nat.
Definition middleFinger : list (nat * nat) := chain [5; 9; 10; 11; 12]%nat.
Definition ringFinger : list (nat * nat) := chain [9; 13; 14; 15; 16]%nat.
Definition pinky : list (nat * nat) := chain [13; 17; 18; 19; 20]%nat.
Definition wristToPinkyBase : nat * nat := (0, 17)%nat.

(** The landmark indices an edge list touches. *)
Definition endpoints (edges : list (nat * nat)) : list nat :=
  flat_map (fun c => [fst c; snd c]) edges.

End ConnectionProperties.

Section DrawProperties.
Context {N : Type} `{JSNumber N}.
Local Open Scope js_scope.

(** Both landmarks of an edge are there to be read. *)
Definition bothPresent (lms : list (Slot (Landmark N))) (c : nat * nat) : bool :=
  match element lms (fst c), element lms (snd c) with
  | Some _, Some _ => true
  | _, _ => false
  end.

(** The stroke of one edge: from the start landmark to the end landmark,
    both mapped to the canvas; nothing when either is missing. *)
Definition segment (lms : list (Slot (Landmark N)))
           (scaleX scaleY offsetX offsetY : N) (c : nat * nat)
  : list (CanvasOp N) :=
  match element lms (fst c), element lms (snd c) with
  | Some a, Some b =>
      [ MoveTo (x a * scaleX + offsetX) (y a * scaleY + offsetY);
        LineTo (x b * scaleX + offsetX) (y b * scaleY + offsetY) ]
  | _, _ => []
  end.

(** Lines 176-180: the radius of a landmark's disc. *)
Definition discRadius (landmark : Landmark N) (scaleX scaleY : N) : N :=
  math_max (lit 8) (math_min scaleX scaleY / lit 40)
  * (lit 1 + z landmark * lit 1.5) * effectiveVisibility landmark.


(** What [onResults] leaves untouched when it returns early: everything
    but the canvas element. *)
Definition sameSession (st st' : Hook N) : Prop :=
  videoRef st' = videoRef st /\ handsRef st' = handsRef st
  /\ cameraRef st' = cameraRef st /\ isInitialized st' = isInitialized st
  /\ isStreaming st' = isStreaming st
  /\ detectionResults st' = detectionResults st /\ error st' = error st.

(** The operations performed so far on the canvas' context, if there is
    one. *)
Definition painted (st : Hook N) : option (list (CanvasOp N)) :=
  match canvasRef st with
  | Some canvas => context2d canvas
  | None => None
  end.

(** A drawing prerequisite of [onResults] is missing: the canvas, its 2D
    context, the video, or one of the video's intrinsic dimensions. *)
Definition prerequisiteMissing (st : Hook N) : Prop :=
  canvasRef st = None
  \/ painted st = None
  \/ videoRef st = None
  \/ exists video, videoRef st = Some video
       /\ (truthy (videoWidth video) = false
           \/ truthy (videoHeight video) = false).

End DrawProperties.

(** ** Example states *)

Section Examples.
Local Open Scope Q_scope.

Definition video1280x720 : HTMLVideoElement Q :=
  {| videoWidth := 1280; videoHeight := 720 |}.

(** A canvas of the default size, nothing painted on it yet. *)
Definition blankCanvas : HTMLCanvasElement Q :=
  {| width := 300; height := 150; context2d := Some [] |}.

Definition window1024x768 : Window Q :=
  {| innerWidth := 1024; innerHeight := 768 |}.

(** The canvas is mounted but the video element is not there yet. *)
Definition noVideoYet : Hook Q :=
  {| videoRef := None; canvasRef := Some blankCanvas;
     handsRef := None; cameraRef := None;
     isInitialized := false; isStreaming := false;
     detectionResults := []; error := EmptyString |}.

Definition noHands : Results Q :=
  {| multiHandLandmarks := None; multiHandedness := None |}.

(** One right hand, its 21 landmarks all at the centre of the frame. *)
Definition oneHand : Results Q :=
  {| multiHandLandmarks :=
       Some [repeat (Elem {| x := 0.5; y := 0.5; z := 0; visibility := None |}) 21];
     multiHandedness := Some [{| score := 0.9; label := "Right" |}] |}.

(** One hand held so close to the camera that its landmarks are reported
    in front of the plane [z = -2/3]. *)
Definition handTooClose : Results Q :=
  {| multiHandLandmarks :=
       Some [repeat (Elem {| x := 0.5; y := 0.5; z := -1; visibility := None |}) 21];
     multiHandedness := Some [{| score := 0.9; label := "Right" |}] |}.

(** The same hand with landmarks 4 and 8 left out as holes. *)
Definition handWithHoles : HandDetectionResult Q :=
  {| landmarks :=
       map (fun i => if (Nat.eqb i 4 || Nat.eqb i 8)%bool
                     then Hole
                     else Elem {| x := 0.5; y := 0.5; z := 0; visibility := None |})
           (seq 0 21);
     confidence := 0.9; handedness := "Right" |}.

(** The session once the detector is initialized and the camera started. *)
Definition streaming : Hook Q :=
  startCamera Succeeds Succeeds
    (initializeMediaPipe Succeeds (mounted video1280x720 blankCanvas)).

End Examples.

From Stdlib Require Import Qround.

(** ** What a painting computation adds *)

Section PaintProperties.
Context {N : Type}.

(** The operations a computation performs, read off an empty log. *)
Definition opsOf {A : Type} (m : Paint N A) : list (CanvasOp N) := snd (m []).

(** How it completes, started on an empty log. *)
Definition completionOf {A : Type} (m : Paint N A) : Completion A := fst (m []).

(** The computation only appends to the log, and what it appends and how
    it completes do not depend on what was logged before. *)
Definition appends {A : Type} (m : Paint N A) : Prop :=
  forall log, m log = (completionOf m, log ++ opsOf m).

(** Every operation a computation performs satisfies [P]. *)
Definition paintsOnly {A : Type} (P : CanvasOp N -> Prop) (m : Paint N A)
  : Prop :=
  Forall P (opsOf m).

(** The colours an operation carries. *)
Definition colorsOf (op : CanvasOp N) : list (Color N) :=
  match op with
  | SetStrokeStyle c | SetFillStyle c | SetShadowColor c => [c]
  | SetFillGradient g => map snd (colorStops g)
  | _ => []
  end.

(** An array has an element that is [undefined] (a hole is not one). *)
Definition hasUndefined {A : Type} (arr : list (Slot A)) : bool :=
  existsb (fun slot => match slot with Undef => true | _ => false end) arr.

(** The slots of an array, each with its index. *)
Definition indexed {A : Type} (arr : list (Slot A)) : list (nat * Slot A) :=
  combine (seq 0 (List.length arr)) arr.

(** Whether an operation writes the index label of a landmark. *)
Definition isFillText (op : CanvasOp N) : bool :=
  match op with
  | FillText _ _ _ => true
  | _ => false
  end.

End PaintProperties.

Section HueProperties.
Local Open Scope Q_scope.

(** A colour given as [hsla] has its hue in [0, 360). *)
Definition hueInRange (c : Color Q) : Prop :=
  match c with
  | Hsla h _ _ _ => 0 <= h /\ h < 360
  | Rgba _ _ _ _ => True
  end.

(** An operation carries no colour, or colours with a hue in range. *)
Definition huesInRange (op : CanvasOp Q) : Prop :=
  Forall hueInRange (colorsOf op).

End HueProperties.

Section CollectProperties.
Context {N : Type} `{JSNumber N}.

(** The entry [onResults] stores for the hand of a given index: its
    landmarks, and the score and label of the handedness entry of the same
    index, with [0] and ['Unknown'] standing in for what is missing. *)
Definition detectedHand (handednesses : list (Handedness N)) (index : nat)
           (lms : list (Slot (Landmark N))) : HandDetectionResult N :=
  {| landmarks := lms;
     confidence := orElse (option_map (@score N) (nth_error handednesses index))
                          (lit 0);
     handedness := labelOrUnknown
                     (option_map (@label N) (nth_error handednesses index)) |}.

(** [arr.map((a, i) => f i a)], the first element having index [i]. *)
Fixpoint mapFrom {A B : Type} (f : nat -> A -> B) (arr : list A) (i : nat)
  : list B :=
  match arr with
  | [] => []
  | a :: rest => f i a :: mapFrom f rest (S i)
  end.

(** Lines 149-213: the callback of [hands.forEach] in [drawLandmarks]. *)
Definition drawHand (dateNow : nat -> N) (scaleX scaleY offsetX offsetY : N)
           (hand : HandDetectionResult N) (handIndex : nat) : Paint N unit :=
  let time := (dateNow handIndex * lit 0.001)%js in
  let baseHue :=
    rem (ofNat handIndex * lit 120 + time * lit 30)%js (lit 360) in
  (emit (SetStrokeStyle (Hsla baseHue (lit 80) (lit 70) (lit 0.9))) ;;
   emit (SetLineWidth (math_max (lit 3) (scaleX / lit 200))) ;;
   emit (SetShadowColor (Hsla baseHue (lit 80) (lit 70) (lit 0.6))) ;;
   emit (SetShadowBlur (math_max (lit 8) (scaleX / lit 100))) ;;
   drawConnections hand scaleX scaleY offsetX offsetY ;;
   drawDiscs hand time baseHue scaleX scaleY offsetX offsetY ;;
   emit (SetShadowBlur (lit 0)))%js.

(** The results carry both lists and some hand has an [undefined]
    landmark. *)
Definition resultsHaveUndefined (results : Results N) : bool :=
  match multiHandLandmarks results, multiHandedness results with
  | Some hands, Some _ => existsb (@hasUndefined (Landmark N)) hands
  | _, _ => false
  end.

(** What [onResults] stores for the results of one callback: an entry per
    hand when both lists are there, nothing otherwise. *)
Definition detectedHands (results : Results N) : list (HandDetectionResult N) :=
  match multiHandLandmarks results, multiHandedness results with
  | Some hands, Some handednesses => mapFrom (detectedHand handednesses) hands 0
  | _, _ => []
  end.

(** The canvas sized to the window, with the given operations performed on
    its context. *)
Definition resizedCanvas (window : Window N) (ops : list (CanvasOp N))
  : HTMLCanvasElement N :=
  {| width := innerWidth window; height := innerHeight window;
     context2d := Some ops |}.

(** The two operations that paint the backdrop of a window-sized canvas. *)
Definition backdrop (window : Window N) : list (CanvasOp N) :=
  opsOf (paintBackground (innerWidth window) (innerHeight window)).

(** What [onResults] paints over the backdrop for the hands of one
    callback, on the given video and window. *)
Definition handsPainted (window : Window N) (dateNow : nat -> N)
           (video : HTMLVideoElement N) (results : Results N)
  : list (CanvasOp N) :=
  let t := fitTransform (videoWidth video) (videoHeight video)
                        (innerWidth window) (innerHeight window) in
  opsOf (drawLandmarks dateNow (detectedHands results)
                       (scaleX t) (scaleY t) (offsetX t) (offsetY t)).

(** How painting the hands of one callback ends. *)
Definition handsCompletion (window : Window N) (dateNow : nat -> N)
           (video : HTMLVideoElement N) (results : Results N)
  : Completion unit :=
  let t := fitTransform (videoWidth video) (videoHeight video)
                        (innerWidth window) (innerHeight window) in
  completionOf (drawLandmarks dateNow (detectedHands results)
                              (scaleX t) (scaleY t) (offsetX t) (offsetY t)).

(** Two states agree on the handles and flags of the session controller. *)
Definition sameControl (st st' : Hook N) : Prop :=
  videoRef st' = videoRef st /\ handsRef st' = handsRef st
  /\ cameraRef st' = cameraRef st /\ isInitialized st' = isInitialized st
  /\ isStreaming st' = isStreaming st /\ error st' = error st.

(** Canvas, context and video are there and the video has dimensions, so
    that [onResults] gets past its guards: [ctx] is the context's log and
    [video] the video element. *)
Definition readyToDraw (st : Hook N) (ctx : list (CanvasOp N))
           (video : HTMLVideoElement N) : Prop :=
  painted st = Some ctx
  /\ videoRef st = Some video
  /\ truthy (videoWidth video) = true
  /\ truthy (videoHeight video) = true.

End CollectProperties.

(** ** Runs of the hook *)

(** The calls that reach the hook: its three exported operations, a frame
    from the camera, and a result delivered by the detector. *)
Inductive HookEvent (N : Type) : Type :=
| Initialize (detector : Outcome)
| StartCamera (detector camera : Outcome)
| StopCamera
| Frame (window : Window N) (dateNow : nat -> N) (detected : Results N)
| DetectorResult (window : Window N) (dateNow : nat -> N) (results : Results N).
Arguments Initialize {N}.
Arguments StartCamera {N}.
Arguments StopCamera {N}.

Section HookRuns.
Context {N : Type} `{JSNumber N}.

Definition hookStep (st : Hook N) (e : HookEvent N) : Hook N :=
  match e with
  | Initialize detector => initializeMediaPipe detector st
  | StartCamera detector camera => startCamera detector camera st
  | StopCamera => stopCamera st
  | Frame window dateNow detected => snd (onFrame window dateNow detected st)
  | DetectorResult window dateNow results =>
      snd (onResults window dateNow results st)
  end.

Definition runHook (events : list (HookEvent N)) (st : Hook N) : Hook N :=
  fold_left hookStep events st.

(** The flags agree with the handles, and the handles carry the fixed
    configuration. *)
Definition hookInvariant (st : Hook N) : Prop :=
  (isStreaming st = true <-> cameraRef st <> None)
  /\ (isInitialized st = true <-> handsRef st <> None)
  /\ (isStreaming st = true -> isInitialized st = true)
  /\ (forall cam, cameraRef st = Some cam ->
        cam = {| captureWidth := lit (1280%Q); captureHeight := lit (720%Q) |})
  /\ (forall hands, handsRef st = Some hands ->
        hands = {| maxNumHands := lit (2%Q); modelComplexity := lit (1%Q);
                   minDetectionConfidence := lit (0.5%Q);
                   minTrackingConfidence := lit (0.5%Q) |}).

End HookRuns.

(** ** MediaPipeTracker, the component that uses the hook *)

(** The component's own state (lines 17-18 of the component) beside the
    hook's. *)
Record Tracker (N : Type) : Type := {
  hook : Hook N;
  showPermissionDialog : bool;
  hasPermission : bool
}.

(** Which of the three texts the waiting overlay shows (lines 102-124). *)
Inductive Waiting : Type :=
| Initializing
| CameraNeeded
| StartingCamera.

(** What the component renders over the canvas (lines 38-137). *)
Record View : Type := {
  permissionDialog : bool;
  errorBanner : option string;
  waitingOverlay : option Waiting;
  noHandGuide : bool
}.

(** What can happen to the mounted component: its mount effect, a click on
    one of the two buttons of the permission dialog, a result delivered by
    the detector, and the hook's cleanup. *)
Inductive TrackerEvent (N : Type) : Type :=
| MountEffect (detector : Outcome)
| ClickAllow (detector camera : Outcome)
| ClickDeny
| Detected (window : Window N) (dateNow : nat -> N) (results : Results N)
| Cleanup.
Arguments MountEffect {N}.
Arguments ClickAllow {N}.
Arguments ClickDeny {N}.
Arguments Cleanup {N}.

Section Component.
Context {N : Type} `{JSNumber N}.

(** The component after its first render. *)
Definition mountTracker (video : HTMLVideoElement N)
           (canvas : HTMLCanvasElement N) : Tracker N :=
  {| hook := mounted video canvas;
     showPermissionDialog := true; hasPermission := false |}.

Definition withHook (t : Tracker N) (st : Hook N) : Tracker N :=
  {| hook := st; showPermissionDialog := showPermissionDialog t;
     hasPermission := hasPermission t |}.

(** Lines 24-28 of the component. *)
Definition handleAllowCamera (detector camera : Outcome) (t : Tracker N)
  : Tracker N :=
  {| hook := startCamera detector camera (hook t);
     showPermissionDialog := false; hasPermission := true |}.

(** Lines 30-33 of the component. *)
Definition handleDenyCamera (t : Tracker N) : Tracker N :=
  {| hook := hook t; showPermissionDialog := false; hasPermission := false |}.

(** Lines 38-137 of the component: the conditions under which each overlay
    is rendered. *)
Definition render (t : Tracker N) : View :=
  let st := hook t in
  {| permissionDialog := showPermissionDialog t;
     errorBanner :=
       match error st with
       | EmptyString => None
       | message => Some message
       end;
     waitingOverlay :=
       if (negb (hasPermission t) || negb (isStreaming st))
          && negb (showPermissionDialog t)
       then Some (if negb (isInitialized st) then Initializing
                  else if negb (hasPermission t) then CameraNeeded
                  else StartingCamera)
       else None;
     noHandGuide :=
       isStreaming st
       && Nat.eqb (List.length (detectionResults st)) 0 |}.

(** The two buttons exist only while the dialog is rendered (lines 38-70 of
    the component), so a click can only happen then. *)
Definition trackerStep (t : Tracker N) (e : TrackerEvent N) : Tracker N :=
  match e with
  | MountEffect detector => withHook t (initializeMediaPipe detector (hook t))
  | ClickAllow detector camera =>
      if showPermissionDialog t then handleAllowCamera detector camera t else t
  | ClickDeny =>
      if showPermissionDialog t then handleDenyCamera t else t
  | Detected window dateNow results =>
      withHook t (snd (onResults window dateNow results (hook t)))
  | Cleanup => withHook t (stopCamera (hook t))
  end.

Definition runTracker (events : list (TrackerEvent N)) (t : Tracker N)
  : Tracker N :=
  fold_left trackerStep events t.

(** The dialog is up only before any permission was given and any camera
    started, and the camera only streams once permission was given. *)
Definition trackerInvariant (t : Tracker N) : Prop :=
  hookInvariant (hook t)
  /\ (showPermissionDialog t = true ->
      hasPermission t = false /\ isStreaming (hook t) = false)
  /\ (isStreaming (hook t) = true -> hasPermission t = true).

(** How many of the three full-screen overlays a view shows. *)
Definition overlaysShown (v : View) : nat :=
  (if permissionDialog v then 1 else 0)
  + (match waitingOverlay v with Some _ => 1 | None => 0 end)
  + (if noHandGuide v then 1 else 0).

End Component.


(** ** The fit transform: theorems *)

Unset Implicit Arguments.

Section FitExact.
Local Open Scope Q_scope.

Lemma exact_gtb_true (a b : Q) : ExactNum.gtb a b = true <-> b < a.
Proof.
  unfold ExactNum.gtb. rewrite negb_true_iff.
  split; intro Hab.
  - apply Qnot_le_lt. intro Hle.
    apply Qle_bool_iff in Hle. congruence.
  - destruct (Qle_bool a b) eqn:E; [|reflexivity].
    apply Qle_bool_iff in E. exfalso. apply (Qlt_not_le _ _ Hab E).
Qed.

Lemma exact_gtb_false (a b : Q) : ExactNum.gtb a b = false <-> a <= b.
Proof.
  unfold ExactNum.gtb. rewrite negb_false_iff. apply Qle_bool_iff.
Qed.

(** When the video is relatively wider, its height-fitted width exceeds
    the canvas width. *)
Lemma wider_scaled_width (vw vh cw ch : Q) :
  0 < ch -> cw / ch < vw / vh -> cw < ch * (vw / vh).
Proof.
  intros Hch Hlt.
  assert (E : cw == cw / ch * ch) by (field; lra).
  rewrite E at 1. rewrite (Qmult_comm ch).
  apply Qmult_lt_compat_r; assumption.
Qed.

(** Otherwise its width-fitted height is at least the canvas height. *)
Lemma narrower_scaled_height (vw vh cw ch : Q) :
  0 < vw -> 0 < vh -> 0 < ch -> vw / vh <= cw / ch -> ch <= cw / (vw / vh).
Proof.
  intros Hvw Hvh Hch Hle.
  assert (Hva : 0 < vw / vh) by (apply Qlt_shift_div_l; lra).
  apply Qle_shift_div_l; [assumption|].
  assert (E : cw == cw / ch * ch) by (field; lra).
  rewrite E, (Qmult_comm ch).
  apply Qmult_le_compat_r; lra.
Qed.

Lemma aspect_positive (vw vh : Q) : 0 < vw -> 0 < vh -> 0 < vw / vh.
Proof. intros Hvw Hvh. apply Qlt_shift_div_l; lra. Qed.

End FitExact.

Section FitExactTheorems.
Local Open Scope Q_scope.

(** Video 1280x720 on a 400x800 canvas: the top-left corner of the video
    lands left of the canvas, so the frame is cropped. *)
Lemma fit_crops_1280x720_in_400x800 : ~ neverCrops 1280 720 400 800.
Proof.
  intros [Hin _].
  destruct (Hin 0 0) as [[Hx _] _]; try (split; discriminate).
  vm_compute in Hx. apply Hx. reflexivity.
Qed.

(** C1 (amended).  The transform covers the canvas instead of showing
    the whole video.  On every reading of the numbers, the doubles
    included, the axis that is fitted (height when the video is relatively
    wider, width otherwise) has the canvas extent as scale and offset
    exactly zero, so at least one offset is zero, and the other axis is
    centred.  For positive sizes whose aspect ratios differ, the scaled
    extent on the other axis exceeds the canvas, its offset is negative,
    and the image of the unit square contains the canvas rectangle. *)
Theorem fit_covers_canvas :
  (forall (N : Type) (num : JSNumber N) (vw vh cw ch : N),
     let t := fitTransform vw vh cw ch in
     (offsetX t = lit 0 \/ offsetY t = lit 0)
     /\ (if fitsToHeight vw vh cw ch
         then scaleY t = ch /\ offsetY t = lit 0
              /\ offsetX t = div (sub cw (scaleX t)) (lit 2)
         else scaleX t = cw /\ offsetX t = lit 0
              /\ offsetY t = div (sub ch (scaleY t)) (lit 2)))
  /\ (forall vw vh cw ch : Q,
        0 < vw -> 0 < vh -> 0 < cw -> 0 < ch -> ~ vw / vh == cw / ch ->
        let t := fitTransform vw vh cw ch in
        coversCanvas cw ch t
        /\ (if fitsToHeight vw vh cw ch
            then cw < scaleX t /\ offsetX t < 0
            else ch < scaleY t /\ offsetY t < 0)).
Proof.
  split.
  - intros N num vw vh cw ch. unfold fitTransform, fitsToHeight.
    destruct (gtb (div vw vh) (div cw ch)); cbn [scaleX scaleY offsetX offsetY].
    + split; [right; reflexivity | repeat split].
    + split; [left; reflexivity | repeat split].
  - intros vw vh cw ch Hvw Hvh Hcw Hch Hdiffer.
    unfold coversCanvas, toCanvasX, toCanvasY, fitTransform, fitsToHeight.
    cbn [lit add sub mul div gtb Exact].
    destruct (ExactNum.gtb (vw / vh) (cw / ch)) eqn:E;
      cbn [scaleX scaleY offsetX offsetY].
    + apply exact_gtb_true in E.
      pose proof (wider_scaled_width vw vh cw ch Hch E) as K.
      set (s := ch * (vw / vh)) in *. clearbody s.
      unfold Qdiv; change (/ 2) with (1 # 2).
      refine (conj (conj (conj _ _) (conj _ _)) (conj _ _)); lra.
    + apply exact_gtb_false in E.
      pose proof (narrower_scaled_height vw vh cw ch Hvw Hvh Hch E) as K.
      pose proof (aspect_positive vw vh Hvw Hvh) as Hva.
      assert (T : cw / (vw / vh) == ch -> vw / vh == cw / ch).
      { intros Heq. rewrite <- Heq. field. lra. }
      assert (K' : ch < cw / (vw / vh)).
      { destruct (Qle_lt_or_eq _ _ K) as [Hlt | Heq]; [exact Hlt|].
        destruct Hdiffer. apply T. symmetry. exact Heq. }
      set (s := cw / (vw / vh)) in *. clearbody s.
      unfold Qdiv; change (/ 2) with (1 # 2).
      refine (conj (conj (conj _ _) (conj _ _)) (conj _ _)); lra.
Qed.

Lemma fit_covers_canvas_witness :
  (0 < 1280 /\ 0 < 720 /\ 0 < 400 /\ 0 < 800 /\ ~ 1280 / 720 == 400 / 800)
  /\ coversCanvas 400 800 (fitTransform 1280 720 400 800)
  /\ offsetY (fitTransform 1280%float 720%float 400%float 800%float)
     = 0%float.
Proof.
  assert (Hdiffer : ~ 1280 / 720 == 400 / 800) by discriminate.
  split; [repeat split; exact Hdiffer|]. split.
  - exact (proj1 (proj2 fit_covers_canvas 1280 720 400 800
                    eq_refl eq_refl eq_refl eq_refl Hdiffer)).
  - exact (proj1 (proj2 (proj2 (proj1 fit_covers_canvas float Binary64
                                  1280%float 720%float 400%float 800%float)))).
Defined.

(** In exact arithmetic the two branches agree when the aspect ratios are
    equal: the width-fit branch, which is the one taken, yields the canvas
    height as vertical scale and no offset. *)
Lemma fit_tie_exact (vw vh cw ch : Q) :
  0 < vw -> 0 < vh -> 0 < cw -> 0 < ch -> vw / vh == cw / ch ->
  let t := fitTransform vw vh cw ch in
  fitsToHeight vw vh cw ch = false
  /\ scaleX t = cw /\ scaleX t == ch * (vw / vh) /\ scaleY t == ch
  /\ offsetX t = 0 /\ offsetY t == 0.
Proof.
  intros Hvw Hvh Hcw Hch Htie.
  assert (E : ExactNum.gtb (vw / vh) (cw / ch) = false).
  { apply exact_gtb_false. rewrite Htie. apply Qle_refl. }
  unfold fitTransform, fitsToHeight. cbn [lit add sub mul div gtb Exact].
  rewrite E. cbn [scaleX scaleY offsetX offsetY].
  assert (Hs : cw / (vw / vh) == ch) by (rewrite Htie; field; lra).
  repeat split.
  - rewrite Htie. field. lra.
  - exact Hs.
  - rewrite Hs. field.
Qed.

End FitExactTheorems.

Section FitBinary64.
Local Open Scope float_scope.

Lemma SFeqb_not_SFltb (a b : spec_float) :
  SFeqb a b = true -> SFltb b a = false.
Proof.
  unfold SFeqb, SFltb.
  destruct a as [sa| sa| |sa ma ea], b as [sb|sb| |sb mb eb]; cbn;
    try discriminate; try reflexivity;
    try (destruct sa; discriminate); try (destruct sb; discriminate);
    try (destruct sa, sb; (discriminate || reflexivity)).
  assert (A : Pos.compare_cont Eq mb ma = CompOpp (Pos.compare_cont Eq ma mb))
    by (rewrite Pos.compare_cont_antisym; reflexivity).
  rewrite (Z.compare_antisym ea eb), A.
  destruct sa, sb; try discriminate;
    destruct (ea ?= eb)%Z; cbn; try discriminate;
    destruct (Pos.compare_cont Eq ma mb); cbn; (discriminate || reflexivity).
Qed.

(** A strict comparison fails on doubles that compare equal. *)
Lemma double_tie_not_gtb (a b : float) :
  (a =? b) = true -> Double.gtb a b = false.
Proof.
  unfold Double.gtb. rewrite FloatAxioms.eqb_spec, FloatAxioms.ltb_spec.
  apply SFeqb_not_SFltb.
Qed.

(** Two doubles that the comparison tells apart are different. *)
Lemma double_neq (a b : float) :
  (a =? b) = false -> (b =? b) = true -> a <> b.
Proof. intros Hab Hbb Heq. rewrite Heq in Hab. congruence. Qed.

(** On the doubles a JavaScript engine computes, the cover property holds
    for every camera frame size and window size of the grid. *)
Example fit_covers_canvas_on_doubles :
  forallb (fun video =>
             forallb (fun window =>
                        coversOnDoubles (fst video) (snd video)
                                        (fst window) (snd window))
                     windowSizes)
          frameSizes
  = true.
Proof. vm_compute. reflexivity. Qed.

(** The doubles computed for the first example of the specification:
    video 1280x720 on a 400x800 canvas. *)
Example fit_1280x720_in_400x800 :
  fitTransform 1280 720 400 800
  = {| scaleX := 0x1.638e38e38e38ep+10; scaleY := 800;
       offsetX := - 0x1.ff1c71c71c71cp+8; offsetY := 0 |}.
Proof. reflexivity. Qed.

(** Video 1280x720 on a 600x600 canvas: the video is relatively wider, the
    test of line 51 holds, and none of the four values is the one a fit to
    the canvas width would give. *)
Lemma fit_1280x720_in_600x600_is_not_width_fit :
  fitsToHeight 1280 720 600 600 = true
  /\ scaleX (fitTransform 1280 720 600 600) <> 600
  /\ scaleY (fitTransform 1280 720 600 600) <> 337.5
  /\ offsetX (fitTransform 1280 720 600 600) <> 0
  /\ offsetY (fitTransform 1280 720 600 600) <> 131.25.
Proof.
  split; [reflexivity|].
  repeat split; apply double_neq; reflexivity.
Qed.

(** C3 (amended).  For video 1280x720 and canvas 600x600 the fit takes
    the height-fit branch: [scaleY] is the canvas height 600, [scaleX] is
    [600 * (1280 / 720)], about 1066.67, [offsetX] is
    [(600 - scaleX) / 2], about -233.33, and [offsetY] is 0.  The doubles
    are the ones a JavaScript engine computes; in exact arithmetic the
    values are 3200/3 and -700/3. *)
Theorem fit_1280x720_in_600x600 :
  fitsToHeight 1280 720 600 600 = true
  /\ fitTransform 1280 720 600 600
     = {| scaleX := 0x1.0aaaaaaaaaaaap+10; scaleY := 600;
          offsetX := - 0x1.d2aaaaaaaaaa8p+7; offsetY := 0 |}
  /\ (scaleX (fitTransform 1280 720 600 600) == 3200 # 3
      /\ scaleY (fitTransform 1280 720 600 600) == 600
      /\ offsetX (fitTransform 1280 720 600 600) == - (700 # 3)
      /\ offsetY (fitTransform 1280 720 600 600) == 0)%Q.
Proof.
  repeat split; vm_compute; reflexivity.
Qed.

(** Video 352x288 on an 880x720 canvas: the aspect ratios are equal, as
    rationals and as doubles, yet the test of line 51 fails and the doubles
    computed are not those of the height-fit branch. *)
Lemma fit_tie_352x288_in_880x720 :
  ((352 # 288) == (880 # 720))%Q
  /\ (352 / 288 =? 880 / 720) = true
  /\ fitsToHeight 352 288 880 720 = false
  /\ scaleY (fitTransform 352 288 880 720) <> 720
  /\ scaleX (fitTransform 352 288 880 720) <> 720 * (352 / 288)
  /\ offsetY (fitTransform 352 288 880 720) <> 0.
Proof.
  split; [reflexivity|]. split; [reflexivity|]. split; [reflexivity|].
  repeat split; apply double_neq; reflexivity.
Qed.

(** C4 (amended).  Whenever the two aspect ratios compare equal, the
    strict test of line 51 fails and the fit takes the width-fit branch:
    [scaleX] is the canvas width, [scaleY] is
    [canvasWidth / videoAspect], [offsetX] is 0 and [offsetY] is
    [(canvasHeight - scaleY) / 2].  This holds of the doubles themselves,
    whatever the four sizes. *)
Theorem fit_tie_takes_width_fit (vw vh cw ch : float) :
  (vw / vh =? cw / ch) = true ->
  fitsToHeight vw vh cw ch = false
  /\ fitTransform vw vh cw ch
     = {| scaleX := cw; scaleY := cw / (vw / vh);
          offsetX := 0; offsetY := (ch - cw / (vw / vh)) / 2 |}.
Proof.
  intros Htie. apply double_tie_not_gtb in Htie.
  unfold fitsToHeight, fitTransform. cbn [gtb div sub mul lit Binary64].
  rewrite Htie. split; reflexivity.
Qed.

Lemma fit_tie_takes_width_fit_witness :
  (352 / 288 =? 880 / 720) = true
  /\ fitTransform 352 288 880 720
     = {| scaleX := 880; scaleY := 0x1.67fffffffffffp+9;
          offsetX := 0; offsetY := 0x1p-44 |}.
Proof.
  split; [reflexivity|].
  refine (eq_trans (proj2 (fit_tie_takes_width_fit 352 288 880 720 _)) _);
    reflexivity.
Defined.

End FitBinary64.

(** ** The connection graph *)

Section Connections.

Lemma connections_not_20_edges : List.length connections <> 20%nat.
Proof. discriminate. Qed.

(** C9 (amended).  The connection list has exactly 21 edges over the 21
    landmark indices: the thumb, index, middle, ring and pinky chains, of
    four edges each and in that order, followed by the wrist-to-pinky-base
    edge.  Every endpoint is below 21 and every index below 21 is an
    endpoint. *)
Theorem connections_shape :
  List.length connections = 21%nat
  /\ connections
     = thumb ++ indexFinger ++ middleFinger ++ ringFinger ++ pinky
       ++ [wristToPinkyBase]
  /\ map (@List.length _) [thumb; indexFinger; middleFinger; ringFinger; pinky]
     = [4; 4; 4; 4; 4]%nat
  /\ Forall (fun i => (i < 21)%nat) (endpoints connections)
  /\ Forall (fun i => In i (endpoints connections)) (seq 0 21).
Proof.
  split; [reflexivity|]. split; [reflexivity|]. split; [reflexivity|].
  split.
  - repeat constructor.
  - apply Forall_forall. intros i Hi. apply in_seq in Hi.
    do 21 (destruct i as [|i]; [vm_compute; tauto|]). lia.
Qed.

End Connections.

(** ** Drawing *)

Section DrawTheorems.
Context {N : Type} `{JSNumber N}.
Local Open Scope js_scope.

(** A loop whose callback only appends operations and never throws
    appends the operations of every element, in order. *)
Lemma forEachFrom_appends {A : Type} (body : A -> nat -> Paint N unit)
      (ops : A -> list (CanvasOp N)) :
  (forall a i log, body a i log = (Normal tt, log ++ ops a)) ->
  forall arr i log,
    forEachFrom body arr i log = (Normal tt, log ++ flat_map ops arr).
Proof.
  intros Hbody arr. induction arr as [|a rest IH]; intros i log; cbn.
  - rewrite app_nil_r. reflexivity.
  - unfold bind. rewrite Hbody, IH, <- app_assoc. reflexivity.
Qed.

Lemma flat_map_guarded {A B : Type} (keep : A -> bool) (f : A -> list B)
      (l : list A) :
  flat_map (fun a => if keep a then f a else []) l = flat_map f (filter keep l).
Proof.
  induction l as [|a l IH]; cbn; [reflexivity|].
  destruct (keep a); cbn; rewrite IH; reflexivity.
Qed.

Lemma bothPresent_true (lms : list (Slot (Landmark N))) (c : nat * nat) :
  bothPresent lms c = true
  <-> element lms (fst c) <> None /\ element lms (snd c) <> None.
Proof.
  unfold bothPresent.
  destruct (element lms (fst c)), (element lms (snd c));
    split; try discriminate; try (intros _; split; discriminate);
    intros [Ha Hb]; congruence.
Qed.

(** C6.  For every hand, whatever slots of its landmark array are holes,
    [undefined] or past the end, the connection step completes without
    throwing and strokes exactly the edges of [connections] whose two
    endpoints are present: between [beginPath] and [stroke] it issues the
    [moveTo]/[lineTo] pair of each such edge, in list order, and nothing
    for an edge with a missing endpoint. *)
Theorem drawConnections_skips_missing_endpoints
        (hand : HandDetectionResult N) (scaleX scaleY offsetX offsetY : N)
        (log : list (CanvasOp N)) :
  let lms := landmarks hand in
  drawConnections hand scaleX scaleY offsetX offsetY log
  = (Normal tt,
     log ++ [BeginPath]
         ++ flat_map (segment lms scaleX scaleY offsetX offsetY)
                     (filter (bothPresent lms) connections)
         ++ [Stroke])
  /\ (forall c, In c (filter (bothPresent lms) connections)
                <-> In c connections
                    /\ element lms (fst c) <> None
                    /\ element lms (snd c) <> None)
  /\ (forall c a b, element lms (fst c) = Some a ->
                    element lms (snd c) = Some b ->
        segment lms scaleX scaleY offsetX offsetY c
        = [ MoveTo (x a * scaleX + offsetX) (y a * scaleY + offsetY);
            LineTo (x b * scaleX + offsetX) (y b * scaleY + offsetY) ]).
Proof.
  intros lms. split; [|split].
  - unfold drawConnections, bind at 1, emit at 1.
    unfold bind at 1.
    rewrite (forEachFrom_appends _
               (fun c => if bothPresent lms c
                         then segment lms scaleX scaleY offsetX offsetY c
                         else [])).
    + unfold emit. rewrite flat_map_guarded, <- !app_assoc. reflexivity.
    + intros [start end_] i log'. unfold bothPresent, segment. cbn [fst snd].
      fold lms.
      destruct (element lms start) as [a|], (element lms end_) as [b|];
        cbn; unfold bind, ret, emit; cbn;
        rewrite <- ?app_assoc, ?app_nil_r; reflexivity.
  - intros c. rewrite filter_In, bothPresent_true. tauto.
  - intros c a b Ha Hb. unfold segment. rewrite Ha, Hb. reflexivity.
Qed.




End DrawTheorems.

Section DiscExact.
Local Open Scope Q_scope.


(** With a radius that is not negative the context accepts the gradient
    and the arc: the disc is painted, the glow first, then the circle
    filled with the gradient, then the label if the radius exceeds 10. *)
Lemma drawDisc_paints (landmark : Landmark Q) (index : nat)
      (time baseHue scaleX scaleY offsetX offsetY : Q)
      (log : list (CanvasOp Q)) :
  0 <= discRadius landmark scaleX scaleY ->
  let px := x landmark * scaleX + offsetX in
  let py := y landmark * scaleY + offsetY in
  let vis := effectiveVisibility landmark in
  let radius := discRadius landmark scaleX scaleY in
  let hue := ExactNum.rem (baseHue + ofNat index * 15 + time * 20) 360 in
  drawDisc landmark index time baseHue scaleX scaleY offsetX offsetY log
  = (Normal tt,
     log ++ [ SetShadowColor (Hsla hue 90 70 0.8);
              SetShadowBlur radius;
              SetFillGradient
                {| gx0 := px; gy0 := py; gr0 := 0;
                   gx1 := px; gy1 := py; gr1 := radius * 1.5;
                   colorStops :=
                     [ (0, Hsla hue 90 90 vis);
                       (0.7, Hsla hue 85 75 (vis * 0.8));
                       (1, Hsla hue 80 50 (vis * 0.2)) ] |};
              BeginPath;
              Arc px py radius 0 (2 * ExactNum.PI);
              Fill ]
         ++ if ExactNum.gtb radius 10
            then [ SetFillStyle (Rgba 255 255 255 (vis * 0.9));
                   SetFontBoldPx (Qmax 12 (radius / 2));
                   SetShadowColor (Rgba 0 0 0 0.8);
                   SetShadowBlur 4;
                   SetTextAlignCenter;
                   SetTextBaselineMiddle;
                   FillText index px py ]
            else []).
Proof.
  intros Hradius px py vis radius hue.
  assert (Hgradient : ExactNum.gtb 0 (radius * 1.5) = false)
    by (apply exact_gtb_false; fold radius in Hradius; lra).
  assert (Harc : ExactNum.gtb 0 radius = false)
    by (apply exact_gtb_false; exact Hradius).
  unfold drawDisc, createRadialGradient, addColorStop, arc, parses, negative.
  cbn [lit add sub mul div rem gtb finite math_max math_min math_PI Exact
       andb negb].
  change (Qmax 8 (Qmin scaleX scaleY / 40) * (1 + z landmark * 1.5)
          * effectiveVisibility landmark) with radius.
  fold px py vis hue.
  change (ExactNum.gtb 0 0) with false. rewrite Hgradient, Harc.
  cbn [orb andb].
  destruct (ExactNum.gtb radius 10);
    unfold bind, emit, ret; cbn; rewrite <- !app_assoc; reflexivity.
Qed.

(** With a negative radius [createRadialGradient] (line 186) throws, before
    any operation of the disc is performed. *)
Lemma drawDisc_throws (landmark : Landmark Q) (index : nat)
      (time baseHue scaleX scaleY offsetX offsetY : Q)
      (log : list (CanvasOp Q)) :
  discRadius landmark scaleX scaleY < 0 ->
  drawDisc landmark index time baseHue scaleX scaleY offsetX offsetY log
  = (Throw IndexSizeError, log).
Proof.
  intros Hradius.
  assert (Hgradient : ExactNum.gtb 0 (discRadius landmark scaleX scaleY * 1.5)
                      = true)
    by (apply exact_gtb_true; lra).
  unfold drawDisc, createRadialGradient, negative.
  cbn [lit add sub mul div rem gtb finite math_max math_min math_PI Exact
       andb negb].
  change (Qmax 8 (Qmin scaleX scaleY / 40) * (1 + z landmark * 1.5)
          * effectiveVisibility landmark)
    with (discRadius landmark scaleX scaleY).
  change (ExactNum.gtb 0 0) with false. rewrite Hgradient.
  reflexivity.
Qed.






(** How a disc ends on doubles, on a 1024x768 fit: a coordinate that is
    NaN and a depth that is infinite are refused by [createRadialGradient]
    with a [TypeError]; a depth in front of [z = -2/3] and a negative
    visibility give a negative radius and an [IndexSizeError]; a radius of
    [-0] is not negative. *)
Example drawDisc_completion_binary64 :
  map (fun l : Landmark float =>
         fst (drawDisc l 0 0%float 0%float 1024%float 768%float
                       0%float 0%float []))
      [ {| x := PrimFloat.nan; y := 0.5; z := 0; visibility := None |};
        {| x := 0.5; y := 0.5; z := PrimFloat.infinity; visibility := None |};
        {| x := 0.5; y := 0.5; z := -0.75; visibility := None |};
        {| x := 0.5; y := 0.5; z := 0; visibility := Some (-0.5) |};
        {| x := 0.5; y := 0.5; z := - 0x1.5555555555555p-1;
           visibility := Some (-0.5) |};
        {| x := 0.5; y := 0.5; z := 0.125; visibility := Some 0.5 |} ]%float
  = [ Throw TypeError; Throw TypeError; Throw IndexSizeError;
      Throw IndexSizeError; Normal tt; Normal tt ].
Proof. reflexivity. Qed.

(** A clock that is NaN gives a hue that is NaN and a colour stop that
    does not parse. *)
Example drawDisc_nan_hue_binary64 :
  drawDisc {| x := 0.5; y := 0.5; z := 0; visibility := None |}%float
           0 PrimFloat.nan 0%float 1024%float 768%float 0%float 0%float []
  = (Throw SyntaxError, []).
Proof. reflexivity. Qed.

(** [arc] with a negative radius throws unless an argument is not finite,
    in which case the call does nothing. *)
Example arc_binary64 :
  map (fun cx : float => fst (arc cx 0 (-1) 0 1 []))%float
      [0%float; PrimFloat.nan]
  = [Throw IndexSizeError; Normal tt].
Proof. reflexivity. Qed.

(** On doubles the default also replaces [-0] and NaN. *)
Example falsy_visibility_binary64 :
  map (fun v : option float =>
         effectiveVisibility
           {| x := 0.5%float; y := 0.5%float; z := 0%float; visibility := v |})
      [None; Some 0; Some (- 0); Some PrimFloat.nan; Some 0.25]%float
  = [1; 1; 1; 1; 0.25]%float.
Proof. reflexivity. Qed.

End DiscExact.

(** ** onResults *)

Section OnResultsTheorems.
Context {N : Type} `{JSNumber N}.

(** C7 (amended).  When the canvas, its 2D context, the video element or
    one of the video's intrinsic dimensions is missing, [onResults]
    returns without throwing, performs no operation on the context and
    leaves the detection results and the rest of the session as they
    were.  With the canvas or its context missing nothing at all changes;
    with only the video or its dimensions missing the canvas has already
    been resized to the window's inner size (lines 38-39 precede the test
    of line 43). *)
Theorem onResults_skips_without_prerequisites
        (window : Window N) (dateNow : nat -> N) (results : Results N)
        (st : Hook N) :
  prerequisiteMissing st ->
  let st' := snd (onResults window dateNow results st) in
  fst (onResults window dateNow results st) = Normal tt
  /\ painted st' = painted st
  /\ sameSession st st'
  /\ (canvasRef st = None \/ painted st = None -> st' = st)
  /\ (forall ctx, painted st = Some ctx ->
        canvasRef st' = Some {| width := innerWidth window;
                                height := innerHeight window;
                                context2d := Some ctx |}).
Proof.
  unfold prerequisiteMissing, painted, sameSession, onResults.
  intros Hmissing.
  destruct (canvasRef st) as [canvas|] eqn:Hcanvas.
  2: { cbn. rewrite Hcanvas. repeat split; try reflexivity. discriminate. }
  destruct (context2d canvas) as [ctx|] eqn:Hctx.
  2: { cbn. rewrite Hcanvas, Hctx. repeat split; try reflexivity. discriminate. }
  assert (Hvideo : videoRef st = None
                   \/ exists video, videoRef st = Some video
                        /\ (truthy (videoWidth video) = false
                            \/ truthy (videoHeight video) = false)).
  { destruct Hmissing as [Hc | [Hc | Hv]]; [discriminate| discriminate| exact Hv]. }
  assert (Hno : (Some canvas = None \/ Some ctx = None) -> False)
    by (intros [Hc | Hc]; discriminate).
  destruct (videoRef st) as [video|] eqn:Hv.
  2: { cbn. repeat split; try reflexivity; try congruence.
       all: intros Hc; destruct (Hno Hc). }
  destruct Hvideo as [Hnone | (video' & Hsome & Hdim)]; [discriminate|].
  injection Hsome as <-.
  assert (Hguard : negb (truthy (videoWidth video))
                   || negb (truthy (videoHeight video)) = true).
  { destruct Hdim as [Hw | Hh]; [rewrite Hw | rewrite Hh];
      cbn; auto using orb_true_r. }
  rewrite Hguard. cbn. repeat split; try reflexivity; try congruence.
  all: intros Hc; destruct (Hno Hc).
Qed.

End OnResultsTheorems.

Section OnResultsExact.
Local Open Scope Q_scope.

(** With the canvas mounted and the video element missing, [onResults]
    changes the state: the 300x150 canvas comes out 1024x768. *)
Lemma onResults_without_video_resizes_canvas :
  prerequisiteMissing noVideoYet
  /\ snd (onResults window1024x768 (fun _ => 0) noHands noVideoYet)
     <> noVideoYet
  /\ canvasRef (snd (onResults window1024x768 (fun _ => 0) noHands noVideoYet))
     = Some {| width := 1024; height := 768; context2d := Some [] |}.
Proof.
  split; [right; right; left; reflexivity|].
  split; [|reflexivity].
  intros Heq. apply (f_equal (@canvasRef Q)) in Heq. cbn in Heq. discriminate.
Qed.

Lemma onResults_skips_without_prerequisites_witness :
  prerequisiteMissing noVideoYet
  /\ fst (onResults window1024x768 (fun _ => 0)
            noHands
            noVideoYet) = Normal tt.
Proof.
  assert (Hmissing : prerequisiteMissing noVideoYet)
    by (right; right; left; reflexivity).
  split; [exact Hmissing|].
  exact (proj1 (onResults_skips_without_prerequisites
                  window1024x768 (fun _ => 0)
                  noHands
                  noVideoYet Hmissing)).
Defined.

End OnResultsExact.

(** ** Session controller *)

Section SessionTheorems.
Context {N : Type} `{JSNumber N}.

(** C2 (amended).  Called while the detector handle is still absent,
    [startCamera] only runs [initializeMediaPipe] and returns: the camera
    handle and the streaming flag are left as they were.  Once that
    initialization has succeeded and the video element is mounted, a
    second call whose camera starts stores the 1280x720 camera, sets the
    streaming flag and clears the error. *)
Theorem startCamera_uninitialized_only_initializes
        (detector camera : Outcome) (st : Hook N) :
  handsRef st = None ->
  let st1 := startCamera detector camera st in
  st1 = initializeMediaPipe detector st
  /\ cameraRef st1 = cameraRef st
  /\ isStreaming st1 = isStreaming st
  /\ (detector = Succeeds -> isInitialized st1 = true /\ handsRef st1 <> None)
  /\ (detector = Succeeds -> videoRef st <> None ->
      forall detector2,
        let st2 := startCamera detector2 Succeeds st1 in
        cameraRef st2 = Some {| captureWidth := lit (1280%Q);
                                captureHeight := lit (720%Q) |}
        /\ isStreaming st2 = true
        /\ error st2 = EmptyString).
Proof.
  intros Hhands.
  assert (E : startCamera detector camera st = initializeMediaPipe detector st)
    by (unfold startCamera; rewrite Hhands; reflexivity).
  cbv zeta. rewrite E.
  split; [reflexivity|].
  split; [destruct detector; reflexivity|].
  split; [destruct detector; reflexivity|].
  split.
  - intros ->. cbn. split; [reflexivity | discriminate].
  - intros -> Hvideo detector2. unfold startCamera. cbn.
    destruct (videoRef st); [|congruence]. cbn. repeat split.
Qed.

(** C5.  When the camera fails to start (the detector and the video
    element being there), the error message becomes non-empty and the
    streaming flag and camera handle are left untouched; a later call
    whose camera starts empties the error message and sets the streaming
    flag. *)
Theorem startCamera_failure_is_recoverable
        (detector detector2 : Outcome) (st : Hook N) :
  handsRef st <> None -> videoRef st <> None ->
  let st1 := startCamera detector Throws st in
  let st2 := startCamera detector2 Succeeds st1 in
  (error st1 <> EmptyString
   /\ isStreaming st1 = isStreaming st
   /\ cameraRef st1 = cameraRef st)
  /\ (error st2 = EmptyString /\ isStreaming st2 = true).
Proof.
  intros Hhands Hvideo. unfold startCamera.
  destruct (handsRef st) eqn:Eh; [|congruence].
  destruct (videoRef st) eqn:Ev; [|congruence].
  cbn. rewrite Eh, Ev. cbn. repeat split. discriminate.
Qed.

(** C8.  [stopCamera] called with no camera handle, the streaming flag
    off and no detection results returns the state it was given: every
    field, the streaming flag, the detection results, the initialization
    flag and the error message among them, keeps its value. *)
Theorem stopCamera_before_start_is_noop (st : Hook N) :
  cameraRef st = None -> isStreaming st = false -> detectionResults st = [] ->
  stopCamera st = st.
Proof.
  intros Hcam Hstream Hres. unfold stopCamera. rewrite Hcam.
  destruct st; cbn in *. subst. reflexivity.
Qed.

End SessionTheorems.

Section SessionExact.
Local Open Scope Q_scope.

Lemma startCamera_uninitialized_does_not_start :
  let st := mounted video1280x720 blankCanvas in
  handsRef st = None
  /\ let st1 := startCamera Succeeds Succeeds st in
     cameraRef st1 = None /\ isStreaming st1 = false.
Proof. cbn. repeat split. Qed.

Lemma startCamera_uninitialized_only_initializes_witness :
  let st := mounted video1280x720 blankCanvas in
  handsRef st = None
  /\ startCamera Succeeds Succeeds st = initializeMediaPipe Succeeds st.
Proof.
  intros st. split; [reflexivity|].
  exact (proj1 (startCamera_uninitialized_only_initializes
                  Succeeds Succeeds st eq_refl)).
Defined.

Lemma startCamera_failure_is_recoverable_witness :
  let st := initializeMediaPipe Succeeds (mounted video1280x720 blankCanvas) in
  (handsRef st <> None /\ videoRef st <> None)
  /\ let st1 := startCamera Succeeds Throws st in
     let st2 := startCamera Succeeds Succeeds st1 in
     (error st1 <> EmptyString
      /\ isStreaming st1 = isStreaming st /\ cameraRef st1 = cameraRef st)
     /\ (error st2 = EmptyString /\ isStreaming st2 = true).
Proof.
  intros st.
  assert (Hhands : handsRef st <> None) by discriminate.
  assert (Hvideo : videoRef st <> None) by discriminate.
  split; [split; assumption|].
  exact (startCamera_failure_is_recoverable Succeeds Succeeds st Hhands Hvideo).
Defined.

Lemma stopCamera_before_start_is_noop_witness :
  let st := mounted video1280x720 blankCanvas in
  (cameraRef st = None /\ isStreaming st = false /\ detectionResults st = [])
  /\ stopCamera st = st.
Proof.
  intros st. split; [repeat split|].
  exact (stopCamera_before_start_is_noop st eq_refl eq_refl eq_refl).
Defined.

End SessionExact.

(** ** Whole runs *)

Section Runs.
Local Open Scope Q_scope.

(** A frame without hands: the backdrop is painted, nothing else, and the
    detection results are empty. *)
Example frame_without_hands :
  let r := onFrame window1024x768 (fun _ => 0) noHands streaming in
  fst r = Normal tt
  /\ detectionResults (snd r) = []
  /\ option_map (@List.length _) (painted (snd r)) = Some 2%nat.
Proof. vm_compute. repeat split. Qed.

(** A frame with one hand of 21 landmarks: the backdrop, the stroke
    settings, the path of the 21 edges, and 21 numbered discs. *)
Example frame_with_one_hand :
  let r := onFrame window1024x768 (fun _ => 0) oneHand streaming in
  fst r = Normal tt
  /\ isStreaming (snd r) = true
  /\ map (fun h => (List.length (landmarks h), handedness h))
         (detectionResults (snd r)) = [(21%nat, "Right"%string)]
  /\ option_map (@List.length _) (painted (snd r))
     = Some (2 + 4 + (1 + 2 * 21 + 1) + 21 * 13 + 1)%nat.
Proof. vm_compute. repeat split. Qed.

(** A frame with a hand whose radius is negative: the results are stored
    and the backdrop, the stroke settings and the edges are painted; the
    first disc then throws and nothing more is drawn. *)
Example frame_with_negative_radius :
  let r := onFrame window1024x768 (fun _ => 0) handTooClose streaming in
  fst r = Throw IndexSizeError
  /\ map (fun h => (List.length (landmarks h), handedness h))
         (detectionResults (snd r)) = [(21%nat, "Right"%string)]
  /\ option_map (@List.length _) (painted (snd r))
     = Some (2 + 4 + (1 + 2 * 21 + 1))%nat.
Proof. vm_compute. repeat split. Qed.

(** With landmarks 4 and 8 missing, the two edges that end there are left
    out and the other 19 are stroked. *)
Example connections_with_two_holes :
  List.length (filter (bothPresent (landmarks handWithHoles)) connections)
  = 19%nat
  /\ filter (fun c => negb (bothPresent (landmarks handWithHoles) c)) connections
     = [(3, 4); (7, 8)]%nat
  /\ option_map (@List.length _)
       (Some (snd (drawConnections handWithHoles 1024 768 0 0 [])))
     = Some (1 + 2 * 19 + 1)%nat.
Proof. vm_compute. repeat split. Qed.

End Runs.

(** ** Painting only appends *)

Section Appends.
Context {N : Type} `{JSNumber N}.
Local Open Scope js_scope.

Lemma appends_ret {A : Type} (a : A) : appends (ret (N:=N) a).
Proof. intros log. unfold ret, completionOf, opsOf. cbn. rewrite app_nil_r. reflexivity. Qed.

Lemma appends_throw {A : Type} (e : JSError) : appends (throw (N:=N) (A:=A) e).
Proof. intros log. unfold throw, completionOf, opsOf. cbn. rewrite app_nil_r. reflexivity. Qed.

Lemma appends_emit (op : CanvasOp N) : appends (emit op).
Proof. intros log. reflexivity. Qed.

Lemma appends_prop {A B : Type} (o : option A) (f : A -> B) :
  appends (prop (N:=N) o f).
Proof. destruct o; [apply appends_ret | apply appends_throw]. Qed.

Lemma appends_bind {A B : Type} (m : Paint N A) (k : A -> Paint N B) :
  appends m -> (forall a, appends (k a)) -> appends (bind m k).
Proof.
  intros Hm Hk log. unfold completionOf, opsOf, bind.
  rewrite (Hm log), (Hm []). cbn [app].
  destruct (completionOf m) as [a|e].
  - rewrite (Hk a (log ++ opsOf m)), (Hk a (opsOf m)). cbn [fst snd].
    rewrite <- app_assoc. reflexivity.
  - reflexivity.
Qed.

Lemma appends_forEachFrom {A : Type} (body : A -> nat -> Paint N unit)
      (arr : list A) :
  (forall a i, appends (body a i)) -> forall i, appends (forEachFrom body arr i).
Proof.
  intros Hbody. induction arr as [|a rest IH]; intros i; cbn [forEachFrom].
  - apply appends_ret.
  - apply appends_bind; [apply Hbody | intros _; apply IH].
Qed.

Lemma appends_forEachSlotFrom {A : Type}
      (body : option A -> nat -> Paint N unit) (arr : list (Slot A)) :
  (forall a i, appends (body a i)) ->
  forall i, appends (forEachSlotFrom body arr i).
Proof.
  intros Hbody. induction arr as [|slot rest IH]; intros i.
  - apply appends_ret.
  - destruct slot; cbn [forEachSlotFrom];
      [apply IH | | ]; (apply appends_bind; [apply Hbody | intros _; apply IH]).
Qed.

Ltac appends_step :=
  first [ apply appends_emit | apply appends_ret | apply appends_throw
        | apply appends_prop
        | apply appends_bind; [|intro] ].

Lemma appends_drawConnections (hand : HandDetectionResult N)
      (scaleX scaleY offsetX offsetY : N) :
  appends (drawConnections hand scaleX scaleY offsetX offsetY).
Proof.
  unfold drawConnections.
  apply appends_bind; [apply appends_emit | intros _].
  apply appends_bind; [| intros _; apply appends_emit].
  apply appends_forEachFrom. intros [start end_] i.
  destruct (element (landmarks hand) start), (element (landmarks hand) end_);
    repeat appends_step.
Qed.

Lemma appends_createRadialGradient (x0 y0 r0 x1 y1 r1 : N) :
  appends (createRadialGradient x0 y0 r0 x1 y1 r1).
Proof.
  unfold createRadialGradient.
  repeat match goal with |- context [if ?c then _ else _] => destruct c end;
    appends_step.
Qed.

Lemma appends_addColorStop (gradient : RadialGradient N) (offset : N)
      (color : Color N) :
  appends (addColorStop gradient offset color).
Proof. unfold addColorStop. destruct (parses color); appends_step. Qed.

Lemma appends_arc (cx cy radius startAngle endAngle : N) :
  appends (arc cx cy radius startAngle endAngle).
Proof.
  unfold arc.
  match goal with |- context [if ?c then _ else _] => destruct c end;
    appends_step.
Qed.

Lemma appends_drawDisc (landmark : Landmark N) (index : nat)
      (time baseHue scaleX scaleY offsetX offsetY : N) :
  appends (drawDisc landmark index time baseHue scaleX scaleY offsetX offsetY).
Proof.
  unfold drawDisc.
  apply appends_bind; [apply appends_createRadialGradient | intros g0].
  do 3 (apply appends_bind; [apply appends_addColorStop | intro]).
  do 4 (apply appends_bind; [apply appends_emit | intros _]).
  apply appends_bind; [apply appends_arc | intros _].
  apply appends_bind; [apply appends_emit | intros _].
  match goal with |- context [if ?c then _ else _] => destruct c end;
    repeat appends_step.
Qed.

Lemma appends_drawDiscs (hand : HandDetectionResult N)
      (time baseHue scaleX scaleY offsetX offsetY : N) :
  appends (drawDiscs hand time baseHue scaleX scaleY offsetX offsetY).
Proof.
  unfold drawDiscs. apply appends_forEachSlotFrom. intros landmark i.
  apply appends_bind; [apply appends_prop | intros l; apply appends_drawDisc].
Qed.

Lemma appends_drawLandmarks (dateNow : nat -> N)
      (hands : list (HandDetectionResult N))
      (scaleX scaleY offsetX offsetY : N) :
  appends (drawLandmarks dateNow hands scaleX scaleY offsetX offsetY).
Proof.
  unfold drawLandmarks. apply appends_forEachFrom. intros hand handIndex.
  do 4 (apply appends_bind; [apply appends_emit | intros _]).
  apply appends_bind; [apply appends_drawConnections | intros _].
  apply appends_bind; [apply appends_drawDiscs | intros _].
  apply appends_emit.
Qed.

Lemma appends_paintBackground (canvasWidth canvasHeight : N) :
  appends (paintBackground canvasWidth canvasHeight).
Proof. unfold paintBackground. repeat appends_step. Qed.

End Appends.

(** ** How the drawing completes *)

Section Completions.
Context {N : Type} `{JSNumber N}.
Local Open Scope js_scope.

Lemma appends_fst {A : Type} (m : Paint N A) (log : list (CanvasOp N)) :
  appends m -> fst (m log) = completionOf m.
Proof. intros Hm. rewrite (Hm log). reflexivity. Qed.

Lemma appends_snd {A : Type} (m : Paint N A) (log : list (CanvasOp N)) :
  appends m -> snd (m log) = log ++ opsOf m.
Proof. intros Hm. rewrite (Hm log). reflexivity. Qed.

Lemma fst_bind {A B : Type} (m : Paint N A) (k : A -> Paint N B)
      (log : list (CanvasOp N)) :
  fst (bind m k log)
  = match fst (m log) with
    | Normal a => fst (k a (snd (m log)))
    | Throw e => Throw e
    end.
Proof. unfold bind. destruct (m log) as [[a|e] log']; reflexivity. Qed.

Lemma completionOf_bind {A B : Type} (m : Paint N A) (k : A -> Paint N B) :
  (forall a, appends (k a)) ->
  completionOf (bind m k)
  = match completionOf m with
    | Normal a => completionOf (k a)
    | Throw e => Throw e
    end.
Proof.
  intros Hk. unfold completionOf at 1 2, bind.
  destruct (m []) as [[a|e] log]; cbn [fst]; [|reflexivity].
  apply appends_fst, Hk.
Qed.

Lemma opsOf_bind {A B : Type} (m : Paint N A) (k : A -> Paint N B) :
  (forall a, appends (k a)) ->
  opsOf (bind m k)
  = opsOf m ++ match completionOf m with
               | Normal a => opsOf (k a)
               | Throw e => []
               end.
Proof.
  intros Hk. unfold opsOf at 1 2, completionOf, bind.
  destruct (m []) as [[a|e] log]; cbn [fst snd].
  - apply appends_snd, Hk.
  - rewrite app_nil_r. reflexivity.
Qed.

Lemma hasUndefined_In {A : Type} (arr : list (Slot A)) :
  hasUndefined arr = true <-> In Undef arr.
Proof.
  unfold hasUndefined. rewrite existsb_exists. split.
  - intros (slot & Hin & Hslot). destruct slot; try discriminate. exact Hin.
  - intros Hin. exists Undef. split; [exact Hin | reflexivity].
Qed.

Lemma completionOf_drawConnections (hand : HandDetectionResult N)
      (scaleX scaleY offsetX offsetY : N) :
  completionOf (drawConnections hand scaleX scaleY offsetX offsetY) = Normal tt.
Proof.
  unfold completionOf, drawConnections, bind at 1, emit at 1.
  unfold bind at 1.
  rewrite (forEachFrom_appends _
             (fun c => if bothPresent (landmarks hand) c
                       then segment (landmarks hand) scaleX scaleY
                                    offsetX offsetY c
                       else [])).
  - reflexivity.
  - intros [start end_] i log'. unfold bothPresent, segment. cbn [fst snd].
    destruct (element (landmarks hand) start) as [a|],
             (element (landmarks hand) end_) as [b|];
      cbn; unfold bind, ret, emit; cbn;
      rewrite <- ?app_assoc, ?app_nil_r; reflexivity.
Qed.

Lemma completionOf_forEachFrom_cons {A : Type}
      (body : A -> nat -> Paint N unit) (a : A) (rest : list A) (i : nat) :
  (forall b j, appends (body b j)) ->
  completionOf (forEachFrom body (a :: rest) i)
  = match completionOf (body a i) with
    | Normal _ => completionOf (forEachFrom body rest (S i))
    | Throw e => Throw e
    end.
Proof.
  intros Hbody. cbn [forEachFrom]. rewrite completionOf_bind.
  - destruct (completionOf (body a i)); reflexivity.
  - intros _. apply appends_forEachFrom, Hbody.
Qed.

Lemma forEachSlotFrom_elem {A : Type}
      (body : option A -> nat -> Paint N unit) (a : A) (rest : list (Slot A))
      (i : nat) (log : list (CanvasOp N)) :
  forEachSlotFrom body (Elem a :: rest) i log
  = match body (Some a) i log with
    | (Normal _, log') => forEachSlotFrom body rest (S i) log'
    | (Throw e, log') => (Throw e, log')
    end.
Proof. reflexivity. Qed.

Lemma bind_prop_some {A B C : Type} (a : A) (f : A -> B) (k : B -> Paint N C)
      (log : list (CanvasOp N)) :
  bind (prop (Some a) f) k log = k (f a) log.
Proof. reflexivity. Qed.

Lemma drawLandmarks_drawHand (dateNow : nat -> N)
      (hands : list (HandDetectionResult N))
      (scaleX scaleY offsetX offsetY : N) :
  drawLandmarks dateNow hands scaleX scaleY offsetX offsetY
  = forEachFrom (drawHand dateNow scaleX scaleY offsetX offsetY) hands 0.
Proof. reflexivity. Qed.

Lemma appends_drawHand (dateNow : nat -> N) (scaleX scaleY offsetX offsetY : N)
      (hand : HandDetectionResult N) (handIndex : nat) :
  appends (drawHand dateNow scaleX scaleY offsetX offsetY hand handIndex).
Proof.
  unfold drawHand.
  do 4 (apply appends_bind; [apply appends_emit | intros _]).
  apply appends_bind; [apply appends_drawConnections | intros _].
  apply appends_bind; [apply appends_drawDiscs | intros _].
  apply appends_emit.
Qed.

(** The body of [hands.forEach] completes as its disc loop does. *)
Lemma completionOf_drawHand (dateNow : nat -> N)
      (scaleX scaleY offsetX offsetY : N)
      (hand : HandDetectionResult N) (handIndex : nat) :
  let time := dateNow handIndex * lit 0.001 in
  let baseHue := rem (ofNat handIndex * lit 120 + time * lit 30) (lit 360) in
  completionOf (drawHand dateNow scaleX scaleY offsetX offsetY hand handIndex)
  = completionOf (drawDiscs hand time baseHue scaleX scaleY offsetX offsetY).
Proof.
  intros time baseHue. unfold completionOf at 1, drawHand.
  rewrite !fst_bind. unfold emit at 1 2 3 4. cbn [fst snd].
  rewrite (appends_fst _ _ (appends_drawConnections _ _ _ _ _)),
          completionOf_drawConnections.
  rewrite (appends_fst _ _ (appends_drawDiscs _ _ _ _ _ _ _)).
  fold time baseHue.
  destruct (completionOf (drawDiscs hand time baseHue scaleX scaleY
                                    offsetX offsetY)) as [[]|e]; reflexivity.
Qed.

End Completions.

(** ** When the drawing throws, in exact arithmetic *)

Section CompletionsExact.
Local Open Scope Q_scope.

(** The disc loop stops at the first element that is [undefined], with a
    [TypeError], or whose radius is negative, with an [IndexSizeError]. *)
Lemma drawDiscs_completion (time baseHue scaleX scaleY offsetX offsetY : Q)
      (lms : list (Slot (Landmark Q))) :
  forall (i : nat) (log : list (CanvasOp Q)),
    let c := fst (forEachSlotFrom
                    (fun (landmark : option (Landmark Q)) (index : nat) =>
                       bind (prop landmark (fun l => l))
                            (fun l => drawDisc l index time baseHue
                                               scaleX scaleY offsetX offsetY))
                    lms i log) in
    (c = Normal tt
     <-> ~ In Undef lms
         /\ forall l, In (Elem l) lms -> 0 <= discRadius l scaleX scaleY)
    /\ (c = Throw TypeError -> In Undef lms)
    /\ (c = Throw IndexSizeError ->
        exists l, In (Elem l) lms /\ discRadius l scaleX scaleY < 0)
    /\ c <> Throw SyntaxError.
Proof.
  induction lms as [|slot rest IH]; intros i log; cbn zeta.
  - cbn. split; [split|split; [|split]]; try discriminate.
    + intros _. split; [intros [] | intros l []].
    + reflexivity.
  - destruct slot as [| |l].
    + cbn [forEachSlotFrom].
      destruct (IH (S i) log) as (IHn & IHt & IHr & IHs).
      split; [split|split; [|split]].
      * intros Hc. apply IHn in Hc. destruct Hc as [Hu Hr]. split.
        -- intros [Hhead | Htail]; [discriminate | exact (Hu Htail)].
        -- intros l [Hhead | Htail]; [discriminate | exact (Hr l Htail)].
      * intros [Hu Hr]. apply IHn. split.
        -- intros Hin. apply Hu. right. exact Hin.
        -- intros l Hin. apply Hr. right. exact Hin.
      * intros Hc. right. exact (IHt Hc).
      * intros Hc. destruct (IHr Hc) as (l & Hin & Hneg).
        exists l. split; [right; exact Hin | exact Hneg].
      * exact IHs.
    + cbn. split; [split|split; [|split]]; try discriminate.
      * intros [Hu _]. destruct Hu. left. reflexivity.
      * intros _. left. reflexivity.
    + rewrite forEachSlotFrom_elem, bind_prop_some.
      destruct (Qlt_le_dec (discRadius l scaleX scaleY) 0) as [Hneg | Hpos].
      * rewrite (drawDisc_throws l i time baseHue scaleX scaleY offsetX offsetY
                   log Hneg).
        cbn [fst]. split; [split|split; [|split]]; try discriminate.
        -- intros [_ Hr]. exfalso.
           apply (Qlt_not_le _ _ Hneg), (Hr l). left. reflexivity.
        -- intros _. exists l. split; [left; reflexivity | exact Hneg].
      * rewrite (drawDisc_paints l i time baseHue scaleX scaleY offsetX offsetY
                   log Hpos).
        match goal with
        | |- context [forEachSlotFrom ?body rest (S i) ?log'] =>
            destruct (IH (S i) log') as (IHn & IHt & IHr & IHs)
        end.
        split; [split|split; [|split]].
        -- intros Hc. apply IHn in Hc. destruct Hc as [Hu Hr]. split.
           ++ intros [Hhead | Htail]; [discriminate | exact (Hu Htail)].
           ++ intros l' [Hhead | Htail]; [|exact (Hr l' Htail)].
              injection Hhead as <-. exact Hpos.
        -- intros [Hu Hr]. apply IHn. split.
           ++ intros Hin. apply Hu. right. exact Hin.
           ++ intros l' Hin. apply Hr. right. exact Hin.
        -- intros Hc. right. exact (IHt Hc).
        -- intros Hc. destruct (IHr Hc) as (l' & Hin & Hneg).
           exists l'. split; [right; exact Hin | exact Hneg].
        -- exact IHs.
Qed.

(** X1.  In exact arithmetic, [drawLandmarks] completes exactly when no
    hand has an element that is [undefined] or a landmark whose radius
    [baseRadius * (1 + z * 1.5) * visibility] is negative; holes, short
    arrays and an empty list of hands never make it throw.  When it throws,
    it is a [TypeError] for an [undefined] element or an [IndexSizeError]
    for a negative radius.  What was logged before plays no part. *)
Theorem drawLandmarks_completes_iff_drawable
        (dateNow : nat -> Q) (hands : list (HandDetectionResult Q))
        (scaleX scaleY offsetX offsetY : Q) (log : list (CanvasOp Q)) :
  let c := fst (drawLandmarks dateNow hands scaleX scaleY offsetX offsetY log) in
  (c = Normal tt
   <-> forall hand, In hand hands ->
         ~ In Undef (landmarks hand)
         /\ forall l, In (Elem l) (landmarks hand) ->
                      0 <= discRadius l scaleX scaleY)
  /\ (c = Throw TypeError ->
      exists hand, In hand hands /\ In Undef (landmarks hand))
  /\ (c = Throw IndexSizeError ->
      exists hand l, In hand hands /\ In (Elem l) (landmarks hand)
                     /\ discRadius l scaleX scaleY < 0)
  /\ c <> Throw SyntaxError.
Proof.
  cbn zeta. rewrite appends_fst by apply appends_drawLandmarks.
  rewrite drawLandmarks_drawHand. generalize 0%nat as i.
  induction hands as [|hand rest IH]; intros i.
  - cbn. split; [split|split; [|split]]; try discriminate.
    + intros _ hand [].
    + reflexivity.
  - rewrite completionOf_forEachFrom_cons by (intros; apply appends_drawHand).
    rewrite completionOf_drawHand.
    destruct (drawDiscs_completion
                (dateNow i * 0.001)
                (ExactNum.rem (ofNat i * 120 + dateNow i * 0.001 * 30) 360)
                scaleX scaleY offsetX offsetY (landmarks hand) 0 [])
      as (Hn & Ht & Hr & Hs).
    cbn zeta in Hn, Ht, Hr, Hs.
    change (completionOf
              (drawDiscs hand (mul (dateNow i) (lit 0.001))
                 (rem (add (mul (ofNat i) (lit 120))
                           (mul (mul (dateNow i) (lit 0.001)) (lit 30)))
                      (lit 360))
                 scaleX scaleY offsetX offsetY))
      with (fst (forEachSlotFrom
                   (fun (landmark : option (Landmark Q)) (index : nat) =>
                      bind (prop landmark (fun l => l))
                           (fun l => drawDisc l index (dateNow i * 0.001)
                                       (ExactNum.rem
                                          (ofNat i * 120
                                           + dateNow i * 0.001 * 30) 360)
                                       scaleX scaleY offsetX offsetY))
                   (landmarks hand) 0 [])).
    destruct (fst (forEachSlotFrom _ (landmarks hand) 0 [])) as [[]|e].
    + destruct (IH (S i)) as (IHn & IHt & IHr & IHs).
      destruct (proj1 Hn eq_refl) as [Hu Hpos].
      split; [split|split; [|split]].
      * intros Hc hand' [<- | Htail]; [split; assumption|].
        exact (proj1 IHn Hc hand' Htail).
      * intros Hall. apply IHn. intros hand' Hin. apply Hall. right. exact Hin.
      * intros Hc. destruct (IHt Hc) as (hand' & Hin & Hundef).
        exists hand'. split; [right; exact Hin | exact Hundef].
      * intros Hc. destruct (IHr Hc) as (hand' & l & Hin & Hl & Hneg).
        exists hand', l. split; [right; exact Hin | split; assumption].
      * exact IHs.
    + split; [split|split; [|split]].
      * discriminate.
      * intros Hall. apply Hn. apply Hall. left. reflexivity.
      * intros Hc. exists hand. split; [left; reflexivity|].
        apply Ht. injection Hc as ->. reflexivity.
      * intros Hc.
        destruct Hr as (l & Hl & Hneg); [injection Hc as ->; reflexivity|].
        exists hand, l. split; [left; reflexivity | split; assumption].
      * intros Hc. apply Hs. exact Hc.
Qed.

End CompletionsExact.

(** ** What the drawing paints *)

Section Painted.
Context {N : Type} `{JSNumber N}.
Local Open Scope js_scope.

Lemma forEachSlotFrom_indexed {A : Type}
      (body : option A -> nat -> Paint N unit) (ops : A -> nat -> list (CanvasOp N))
      (arr : list (Slot A)) :
  (forall a, In (Elem a) arr ->
     forall i log, body (Some a) i log = (Normal tt, log ++ ops a i)) ->
  hasUndefined arr = false ->
  forall i log,
    forEachSlotFrom body arr i log
    = (Normal tt,
       log ++ flat_map (fun p => match snd p with
                                 | Elem a => ops a (fst p)
                                 | _ => []
                                 end)
                       (combine (seq i (List.length arr)) arr)).
Proof.
  induction arr as [|slot rest IH]; intros Hbody Hno i log.
  - cbn. rewrite app_nil_r. reflexivity.
  - assert (Hrest : forall a, In (Elem a) rest ->
              forall i log, body (Some a) i log = (Normal tt, log ++ ops a i))
      by (intros a Hin; apply Hbody; right; exact Hin).
    destruct slot as [| |a]; cbn in Hno; [|discriminate|];
      cbn [forEachSlotFrom List.length seq combine flat_map fst snd].
    + rewrite (IH Hrest Hno). reflexivity.
    + unfold bind. rewrite (Hbody a (or_introl eq_refl)), (IH Hrest Hno),
        <- app_assoc. reflexivity.
Qed.

Lemma paintsOnly_bind {A B : Type} (P : CanvasOp N -> Prop)
      (m : Paint N A) (k : A -> Paint N B) :
  (forall a, appends (k a)) ->
  paintsOnly P m -> (forall a, paintsOnly P (k a)) -> paintsOnly P (bind m k).
Proof.
  intros Hk Hm Hka. unfold paintsOnly. rewrite opsOf_bind by exact Hk.
  apply Forall_app. split; [exact Hm|].
  destruct (completionOf m); [apply Hka | constructor].
Qed.

Lemma paintsOnly_emit (P : CanvasOp N -> Prop) (op : CanvasOp N) :
  P op -> paintsOnly P (emit op).
Proof. intros Hop. repeat constructor. exact Hop. Qed.

Lemma paintsOnly_ret {A : Type} (P : CanvasOp N -> Prop) (a : A) :
  paintsOnly P (ret a).
Proof. constructor. Qed.

Lemma paintsOnly_prop {A B : Type} (P : CanvasOp N -> Prop)
      (o : option A) (f : A -> B) :
  paintsOnly P (prop o f).
Proof. destruct o; constructor. Qed.

Lemma paintsOnly_forEachFrom {A : Type} (P : CanvasOp N -> Prop)
      (body : A -> nat -> Paint N unit) (arr : list A) :
  (forall a i, appends (body a i)) ->
  (forall a i, paintsOnly P (body a i)) ->
  forall i, paintsOnly P (forEachFrom body arr i).
Proof.
  intros Happ Hbody. induction arr as [|a rest IH]; intros i; cbn [forEachFrom].
  - apply paintsOnly_ret.
  - apply paintsOnly_bind;
      [intros _; apply appends_forEachFrom, Happ | apply Hbody | intros _; apply IH].
Qed.

Lemma paintsOnly_forEachSlotFrom {A : Type} (P : CanvasOp N -> Prop)
      (body : option A -> nat -> Paint N unit) (arr : list (Slot A)) :
  (forall a i, appends (body a i)) ->
  (forall a i, paintsOnly P (body a i)) ->
  forall i, paintsOnly P (forEachSlotFrom body arr i).
Proof.
  intros Happ Hbody. induction arr as [|slot rest IH]; intros i.
  - apply paintsOnly_ret.
  - destruct slot; cbn [forEachSlotFrom]; [apply IH | |];
      (apply paintsOnly_bind;
       [ intros _; apply appends_forEachSlotFrom, Happ
       | apply Hbody | intros _; apply IH ]).
Qed.

Lemma paintsOnly_drawConnections (P : CanvasOp N -> Prop)
      (hand : HandDetectionResult N) (scaleX scaleY offsetX offsetY : N) :
  P BeginPath -> P Stroke ->
  (forall px py, P (MoveTo px py)) -> (forall px py, P (LineTo px py)) ->
  paintsOnly P (drawConnections hand scaleX scaleY offsetX offsetY).
Proof.
  intros Hbegin Hstroke Hmove Hline. unfold paintsOnly, opsOf.
  unfold drawConnections, bind at 1, emit at 1. unfold bind at 1.
  rewrite (forEachFrom_appends _
             (fun c => if bothPresent (landmarks hand) c
                       then segment (landmarks hand) scaleX scaleY
                                    offsetX offsetY c
                       else [])).
  - unfold emit. cbn [snd app]. constructor; [exact Hbegin|].
    apply Forall_app. split; [|repeat constructor; exact Hstroke].
    apply Forall_flat_map, Forall_forall. intros c _.
    unfold segment. destruct (bothPresent (landmarks hand) c); [|constructor].
    destruct (element (landmarks hand) (fst c)),
             (element (landmarks hand) (snd c)); repeat constructor; auto.
  - intros [start end_] i log'. unfold bothPresent, segment. cbn [fst snd].
    destruct (element (landmarks hand) start) as [a|],
             (element (landmarks hand) end_) as [b|];
      cbn; unfold bind, ret, emit; cbn;
      rewrite <- ?app_assoc, ?app_nil_r; reflexivity.
Qed.

End Painted.

(** ** Radius, labels and hues, in exact arithmetic *)

Section DiscsExact.
Local Open Scope Q_scope.

Lemma effectiveVisibility_bounds (landmark : Landmark Q) :
  (forall v, visibility landmark = Some v -> 0 <= v <= 1) ->
  0 < effectiveVisibility landmark <= 1.
Proof.
  intros Hv. unfold effectiveVisibility, orElse.
  destruct (visibility landmark) as [v|]; [|split; [reflexivity|discriminate]].
  destruct (Hv v eq_refl) as [H0 H1].
  cbn [truthy lit Exact]. unfold ExactNum.truthy.
  destruct (Qeq_bool v 0) eqn:E; cbn [negb].
  - split; [reflexivity|discriminate].
  - apply Qeq_bool_neq in E. split; [|exact H1].
    destruct (Qle_lt_or_eq _ _ H0) as [Hlt|Heq]; [exact Hlt|].
    destruct E. symmetry. exact Heq.
Qed.

Lemma baseRadius_small (scaleX scaleY : Q) :
  Qmin scaleX scaleY <= 400 ->
  8 <= Qmax 8 (Qmin scaleX scaleY / 40) <= 10.
Proof.
  intros Hmin. split; [apply Q.le_max_l|].
  apply Q.max_lub; [discriminate|].
  apply Qle_shift_div_r; [reflexivity | exact Hmin].
Qed.

Lemma baseRadius_large (scaleX scaleY : Q) :
  400 < Qmin scaleX scaleY ->
  10 < Qmax 8 (Qmin scaleX scaleY / 40).
Proof.
  intros Hmin.
  apply Qlt_le_trans with (Qmin scaleX scaleY / 40); [|apply Q.le_max_r].
  apply Qlt_shift_div_l; [reflexivity | exact Hmin].
Qed.

(** X2.  In exact arithmetic, on a landmark array without [undefined]
    elements and without a landmark of negative radius, the disc loop
    completes and paints the disc of every landmark that is present, once,
    in array order, each under its own array index (the index a hole takes
    up is not reused); for a hole it paints nothing. *)
Theorem drawDiscs_paints_present_landmarks
        (hand : HandDetectionResult Q)
        (time baseHue scaleX scaleY offsetX offsetY : Q)
        (log : list (CanvasOp Q)) :
  hasUndefined (landmarks hand) = false ->
  (forall l, In (Elem l) (landmarks hand) -> 0 <= discRadius l scaleX scaleY) ->
  drawDiscs hand time baseHue scaleX scaleY offsetX offsetY log
  = (Normal tt,
     log ++ flat_map
              (fun p => match snd p with
                        | Elem landmark =>
                            opsOf (drawDisc landmark (fst p) time baseHue
                                            scaleX scaleY offsetX offsetY)
                        | _ => []
                        end)
              (indexed (landmarks hand))).
Proof.
  intros Hno Hradius. unfold drawDiscs, indexed.
  apply (forEachSlotFrom_indexed _
           (fun l i => opsOf (drawDisc l i time baseHue
                                       scaleX scaleY offsetX offsetY)));
    [|exact Hno].
  intros l Hin i log'. rewrite bind_prop_some.
  rewrite (appends_drawDisc l i time baseHue scaleX scaleY offsetX offsetY log').
  unfold completionOf.
  rewrite (drawDisc_paints l i time baseHue scaleX scaleY offsetX offsetY []
             (Hradius l Hin)).
  reflexivity.
Qed.

(** X3.  On a fit whose smaller scale is at most 400, a landmark between
    the plane [z = -2/3] and the wrist plane ([-2/3 <= z <= 0]) whose
    visibility, if given, lies in [0, 1] has a radius between 0 and 10, so
    its disc is painted without the index label: six operations, none of
    them [fillText]. *)
Theorem small_fit_paints_no_label
        (landmark : Landmark Q) (index : nat)
        (time baseHue scaleX scaleY offsetX offsetY : Q) :
  Qmin scaleX scaleY <= 400 ->
  - (2 # 3) <= z landmark <= 0 ->
  (forall v, visibility landmark = Some v -> 0 <= v <= 1) ->
  completionOf (drawDisc landmark index time baseHue
                         scaleX scaleY offsetX offsetY) = Normal tt
  /\ existsb (@isFillText Q)
             (opsOf (drawDisc landmark index time baseHue
                              scaleX scaleY offsetX offsetY)) = false
  /\ List.length (opsOf (drawDisc landmark index time baseHue
                                  scaleX scaleY offsetX offsetY)) = 6%nat.
Proof.
  intros Hmin [Hz0 Hz] Hv.
  pose proof (effectiveVisibility_bounds landmark Hv) as [Hv0 Hv1].
  pose proof (baseRadius_small scaleX scaleY Hmin) as [Hb8 Hb10].
  assert (Hradius : 0 <= discRadius landmark scaleX scaleY <= 10).
  { unfold discRadius. cbn [lit add mul div math_max math_min Exact].
    set (vis := effectiveVisibility landmark) in *.
    set (base := Qmax 8 (Qmin scaleX scaleY / 40)) in *.
    clearbody vis base. clear Hmin Hv.
    revert Hz0 Hz. generalize (z landmark) as depth. intros depth Hz0 Hz.
    assert (Hf : 0 <= 1 + depth * 1.5 <= 1) by (split; lra).
    set (f := 1 + depth * 1.5) in *. clearbody f.
    assert (H1 : 0 <= (10 - base) * f) by (apply Qmult_le_0_compat; lra).
    assert (H2 : 0 <= base * f) by (apply Qmult_le_0_compat; lra).
    assert (H3 : 0 <= base * f * (1 - vis)) by (apply Qmult_le_0_compat; lra).
    assert (H4 : 0 <= base * f * vis) by (apply Qmult_le_0_compat; lra).
    split; lra. }
  destruct Hradius as [Hlow Hhigh].
  unfold completionOf, opsOf.
  rewrite (drawDisc_paints landmark index time baseHue scaleX scaleY
             offsetX offsetY [] Hlow).
  apply exact_gtb_false in Hhigh. rewrite Hhigh.
  repeat split.
Qed.

(** X4.  On a fit whose smaller scale exceeds 400, a landmark at or in
    front of the wrist plane ([z >= 0]) drawn with visibility [1] has radius
    above 10, so its disc is followed by the label: thirteen operations,
    the last one writing the landmark's index at the centre of the disc. *)
Theorem large_fit_paints_label
        (landmark : Landmark Q) (index : nat)
        (time baseHue scaleX scaleY offsetX offsetY : Q) :
  400 < Qmin scaleX scaleY ->
  0 <= z landmark ->
  effectiveVisibility landmark == 1 ->
  last (opsOf (drawDisc landmark index time baseHue
                        scaleX scaleY offsetX offsetY)) Fill
  = FillText index (x landmark * scaleX + offsetX)
                   (y landmark * scaleY + offsetY)
  /\ List.length (opsOf (drawDisc landmark index time baseHue
                                  scaleX scaleY offsetX offsetY)) = 13%nat.
Proof.
  intros Hmin Hz Hvis.
  pose proof (baseRadius_large scaleX scaleY Hmin) as Hbase.
  assert (Hradius : 10 < discRadius landmark scaleX scaleY).
  { unfold discRadius. cbn [lit add mul div math_max math_min Exact].
    set (vis := effectiveVisibility landmark) in *.
    set (base := Qmax 8 (Qmin scaleX scaleY / 40)) in *.
    clearbody vis base. rewrite Hvis.
    clear Hmin Hvis. revert Hz. generalize (z landmark) as depth. intros depth Hz.
    assert (H1 : 0 <= (base - 10) * (depth * 1.5))
      by (apply Qmult_le_0_compat; lra).
    lra. }
  assert (Hlow : 0 <= discRadius landmark scaleX scaleY) by lra.
  unfold opsOf.
  rewrite (drawDisc_paints landmark index time baseHue scaleX scaleY
             offsetX offsetY [] Hlow).
  apply exact_gtb_true in Hradius. rewrite Hradius.
  split; reflexivity.
Qed.

(** The remainder of a non-negative number by a positive one lies between
    zero and the divisor. *)
Lemma exact_rem_range (a b : Q) :
  0 <= a -> 0 < b -> 0 <= ExactNum.rem a b /\ ExactNum.rem a b < b.
Proof.
  intros Ha Hb. unfold ExactNum.rem, ExactNum.trunc.
  assert (Hq : 0 <= a / b) by (apply Qle_shift_div_l; lra).
  assert (Ea : a == b * (a / b)) by (field; lra).
  set (q := a / b) in *. clearbody q.
  assert (Hnum : (0 <= Qnum q)%Z).
  { unfold Qle in Hq. cbn in Hq. lia. }
  rewrite Z.quot_div_nonneg by (try exact Hnum; reflexivity).
  pose proof (Qfloor_le q) as Hlo. pose proof (Qlt_floor q) as Hhi.
  rewrite inject_Z_plus in Hhi. change (inject_Z 1) with 1 in Hhi.
  assert (Efloor : Qfloor q = (Qnum q / Z.pos (Qden q))%Z)
    by (destruct q; reflexivity).
  rewrite Efloor in Hlo, Hhi.
  set (n := inject_Z (Qnum q / Z.pos (Qden q))) in *. clearbody n.
  assert (H1 : 0 <= b * (q - n)) by (apply Qmult_le_0_compat; lra).
  assert (H2 : 0 < b * (n + 1 - q)) by (apply Qmult_lt_0_compat; lra).
  split; lra.
Qed.

Lemma ofNat_nonneg (n : nat) : 0 <= ofNat n.
Proof.
  unfold ofNat. cbn [lit Exact].
  change 0 with (inject_Z 0). rewrite <- Zle_Qle. lia.
Qed.

Lemma huesInRange_drawDisc (landmark : Landmark Q) (index : nat)
      (time baseHue scaleX scaleY offsetX offsetY : Q) :
  0 <= time -> 0 <= baseHue ->
  paintsOnly huesInRange
    (drawDisc landmark index time baseHue scaleX scaleY offsetX offsetY).
Proof.
  intros Htime Hbase.
  assert (Hhue : hueInRange
                   (Hsla (ExactNum.rem (baseHue + ofNat index * 15 + time * 20)
                                       360) 0 0 0)).
  { apply exact_rem_range; [|reflexivity].
    pose proof (ofNat_nonneg index) as Hi.
    assert (H1 : 0 <= ofNat index * 15) by (apply Qmult_le_0_compat; lra).
    assert (H2 : 0 <= time * 20) by (apply Qmult_le_0_compat; lra).
    lra. }
  unfold paintsOnly, opsOf.
  destruct (Qlt_le_dec (discRadius landmark scaleX scaleY) 0) as [Hneg | Hpos].
  - rewrite (drawDisc_throws landmark index time baseHue scaleX scaleY
               offsetX offsetY [] Hneg).
    apply Forall_nil.
  - rewrite (drawDisc_paints landmark index time baseHue scaleX scaleY
               offsetX offsetY [] Hpos).
    destruct (ExactNum.gtb (discRadius landmark scaleX scaleY) 10);
      cbn [snd app];
      repeat (first [apply Forall_nil | apply Forall_cons]);
      unfold huesInRange; cbn [colorsOf colorStops map snd];
      repeat (first [apply Forall_nil | apply Forall_cons]);
      first [exact I | exact Hhue].
Qed.

(** X5.  With a clock that is not negative, every [hsla] colour that
    [drawLandmarks] sets, as stroke style, shadow colour or gradient stop,
    has its hue in [0, 360), whatever the number of hands, the landmark
    indices and the time. *)
Theorem drawLandmarks_hues_in_range
        (dateNow : nat -> Q) (hands : list (HandDetectionResult Q))
        (scaleX scaleY offsetX offsetY : Q) :
  (forall handIndex, 0 <= dateNow handIndex) ->
  Forall huesInRange
         (opsOf (drawLandmarks dateNow hands scaleX scaleY offsetX offsetY)).
Proof.
  intros Hclock. rewrite drawLandmarks_drawHand.
  apply paintsOnly_forEachFrom; [intros; apply appends_drawHand|].
  intros hand handIndex. unfold drawHand.
  cbn [lit add sub mul div rem gtb math_max math_min math_PI Exact].
  assert (Htime : 0 <= dateNow handIndex * 0.001)
    by (apply Qmult_le_0_compat; [apply Hclock | discriminate]).
  set (time := dateNow handIndex * 0.001) in *.
  assert (Hbase : 0 <= ExactNum.rem (ofNat handIndex * 120 + time * 30) 360
                  /\ ExactNum.rem (ofNat handIndex * 120 + time * 30) 360 < 360).
  { apply exact_rem_range; [|reflexivity].
    pose proof (ofNat_nonneg handIndex) as Hi.
    assert (H1 : 0 <= ofNat handIndex * 120) by (apply Qmult_le_0_compat; lra).
    assert (H2 : 0 <= time * 30) by (apply Qmult_le_0_compat; lra).
    lra. }
  set (baseHue := ExactNum.rem (ofNat handIndex * 120 + time * 30) 360) in *.
  apply paintsOnly_bind;
    [ intros _; do 3 (apply appends_bind; [apply appends_emit | intros _]);
      apply appends_bind; [apply appends_drawConnections | intros _];
      apply appends_bind; [apply appends_drawDiscs | intros _];
      apply appends_emit
    | apply paintsOnly_emit; apply Forall_cons; [exact Hbase | apply Forall_nil]
    | intros _ ].
  apply paintsOnly_bind;
    [ intros _; do 2 (apply appends_bind; [apply appends_emit | intros _]);
      apply appends_bind; [apply appends_drawConnections | intros _];
      apply appends_bind; [apply appends_drawDiscs | intros _];
      apply appends_emit
    | apply paintsOnly_emit; apply Forall_nil | intros _ ].
  apply paintsOnly_bind;
    [ intros _; apply appends_bind; [apply appends_emit | intros _];
      apply appends_bind; [apply appends_drawConnections | intros _];
      apply appends_bind; [apply appends_drawDiscs | intros _];
      apply appends_emit
    | apply paintsOnly_emit; apply Forall_cons; [exact Hbase | apply Forall_nil]
    | intros _ ].
  apply paintsOnly_bind;
    [ intros _;
      apply appends_bind; [apply appends_drawConnections | intros _];
      apply appends_bind; [apply appends_drawDiscs | intros _];
      apply appends_emit
    | apply paintsOnly_emit; apply Forall_nil | intros _ ].
  apply paintsOnly_bind;
    [ intros _;
      apply appends_bind; [apply appends_drawDiscs | intros _];
      apply appends_emit
    | apply paintsOnly_drawConnections; intros; apply Forall_nil | intros _ ].
  apply paintsOnly_bind;
    [ intros _; apply appends_emit | | intros _; apply paintsOnly_emit; apply Forall_nil ].
  unfold drawDiscs. apply paintsOnly_forEachSlotFrom.
  - intros landmark i.
    apply appends_bind; [apply appends_prop | intros l; apply appends_drawDisc].
  - intros landmark i.
    apply paintsOnly_bind;
      [ intros l; apply appends_drawDisc | apply paintsOnly_prop | intros l ].
    apply huesInRange_drawDisc; [exact Htime | apply Hbase].
Qed.

End DiscsExact.

(** ** onResults past its guards *)

Section OnResultsReady.
Context {N : Type} `{JSNumber N}.

Lemma copyLandmarks_faithful (arr : list (Slot (Landmark N))) :
  copyLandmarks arr
  = if hasUndefined arr then Throw TypeError else Normal arr.
Proof.
  induction arr as [|slot rest IH]; [reflexivity|].
  destruct slot as [| |l]; cbn [copyLandmarks]; [| reflexivity |].
  - rewrite IH. change (hasUndefined (Hole :: rest)) with (hasUndefined rest).
    destruct (hasUndefined rest); reflexivity.
  - rewrite IH. change (hasUndefined (Elem l :: rest)) with (hasUndefined rest).
    destruct (hasUndefined rest); [reflexivity|].
    destruct l; reflexivity.
Qed.

Lemma collectHandsFrom_mapFrom (hands : list (list (Slot (Landmark N))))
      (handednesses : list (Handedness N)) (index : nat) :
  collectHandsFrom hands handednesses index
  = if existsb (@hasUndefined (Landmark N)) hands
    then Throw TypeError
    else Normal (mapFrom (detectedHand handednesses) hands index).
Proof.
  revert index. induction hands as [|lms rest IH]; intros index; [reflexivity|].
  cbn [collectHandsFrom existsb mapFrom]. rewrite copyLandmarks_faithful.
  destruct (hasUndefined lms); cbn [orb]; [reflexivity|].
  rewrite IH. destruct (existsb (@hasUndefined (Landmark N)) rest); reflexivity.
Qed.

(** X6.  [collectHands] throws a [TypeError] exactly when both lists are
    there and the landmark array of some hand holds an [undefined] element.
    Otherwise it returns one entry per hand, in the detector's order, with
    the landmark array as delivered (holes included), the score of the
    handedness entry of the same index, [0] when that entry is missing or
    its score is zero, and its label, ['Unknown'] when the entry is missing
    or the label empty; it returns no entry when either list is
    [undefined]. *)
Theorem collectHands_detectedHands (results : Results N) :
  collectHands results
  = if resultsHaveUndefined results
    then Throw TypeError
    else Normal (detectedHands results).
Proof.
  unfold collectHands, resultsHaveUndefined, detectedHands.
  destruct (multiHandLandmarks results) as [hands|]; [|reflexivity].
  destruct (multiHandedness results) as [handednesses|]; [|reflexivity].
  apply collectHandsFrom_mapFrom.
Qed.

Lemma mapFrom_landmarks (handednesses : list (Handedness N))
      (hands : list (list (Slot (Landmark N)))) (index : nat) :
  map (@landmarks N) (mapFrom (detectedHand handednesses) hands index) = hands.
Proof.
  revert index. induction hands as [|lms rest IH]; intros index; [reflexivity|].
  cbn. rewrite IH. reflexivity.
Qed.

Lemma existsb_landmarks (p : list (Slot (Landmark N)) -> bool)
      (hs : list (HandDetectionResult N)) :
  existsb (fun hand => p (landmarks hand)) hs
  = existsb p (map (@landmarks N) hs).
Proof.
  induction hs as [|hand rest IH]; [reflexivity|].
  cbn. rewrite IH. reflexivity.
Qed.

Lemma detectedHands_defined (results : Results N) :
  resultsHaveUndefined results = false ->
  existsb (fun hand => hasUndefined (landmarks hand)) (detectedHands results)
  = false.
Proof.
  unfold resultsHaveUndefined, detectedHands.
  destruct (multiHandLandmarks results) as [hands|]; [|reflexivity].
  destruct (multiHandedness results) as [handednesses|]; [|reflexivity].
  intros Hno.
  rewrite existsb_landmarks, mapFrom_landmarks. exact Hno.
Qed.

(** Past its guards, [onResults] sizes the canvas to the window, paints
    the backdrop, and either throws while it collects the hands or stores
    the hands of this callback and draws them. *)
Lemma onResults_ready
        (window : Window N) (dateNow : nat -> N) (results : Results N)
        (st : Hook N) (ctx : list (CanvasOp N)) (video : HTMLVideoElement N) :
  readyToDraw st ctx video ->
  onResults window dateNow results st
  = if resultsHaveUndefined results
    then (Throw TypeError,
          setCanvas st (Some (resizedCanvas window (ctx ++ backdrop window))))
    else (handsCompletion window dateNow video results,
          setDetectionResults
            (setCanvas st
               (Some (resizedCanvas window
                        (ctx ++ backdrop window
                             ++ handsPainted window dateNow video results))))
            (detectedHands results)).
Proof.
  intros (Hctx & Hvideo & Hw & Hh). unfold painted in Hctx.
  unfold onResults. destruct (canvasRef st) as [canvas|]; [|discriminate].
  rewrite Hctx, Hvideo, Hw, Hh. cbn [negb orb].
  rewrite (appends_snd _ ctx (appends_paintBackground _ _)).
  fold (backdrop window).
  assert (Hcollect :
            collectHands results
            = if resultsHaveUndefined results
              then Throw TypeError
              else Normal (detectedHands results)).
  { unfold collectHands, resultsHaveUndefined, detectedHands.
    destruct (multiHandLandmarks results) as [hands|]; [|reflexivity].
    destruct (multiHandedness results) as [handednesses|]; [|reflexivity].
    apply collectHandsFrom_mapFrom. }
  rewrite Hcollect.
  destruct (resultsHaveUndefined results) eqn:Hundef; [reflexivity|].
  match goal with
  | |- context [drawLandmarks ?d ?hs ?sx ?sy ?ox ?oy ?log] =>
      rewrite (appends_drawLandmarks d hs sx sy ox oy log)
  end.
  unfold handsPainted, handsCompletion. rewrite <- app_assoc. reflexivity.
Qed.

(** X7.  Past its guards, [onResults] first collects the hands: when both
    lists are there and the landmark array of some hand holds an
    [undefined] element, it throws a [TypeError] there, with the canvas
    sized to the window and the backdrop painted, and the stored detection
    results are left as they were.  Otherwise the stored detection results
    are replaced by the entries of this callback alone, one per hand
    delivered, before the hands are drawn (line 96 precedes line 97): they
    are replaced whether or not the drawing then throws, the canvas holds
    what was drawn until then, and the call ends as the drawing does. *)
Theorem onResults_stores_before_drawing
        (window : Window N) (dateNow : nat -> N) (results : Results N)
        (st : Hook N) (ctx : list (CanvasOp N)) (video : HTMLVideoElement N) :
  readyToDraw st ctx video ->
  let st' := snd (onResults window dateNow results st) in
  (resultsHaveUndefined results = true
   <-> exists hands handednesses lms,
         multiHandLandmarks results = Some hands
         /\ multiHandedness results = Some handednesses
         /\ In lms hands /\ In Undef lms)
  /\ (resultsHaveUndefined results = true ->
      fst (onResults window dateNow results st) = Throw TypeError
      /\ detectionResults st' = detectionResults st
      /\ painted st' = Some (ctx ++ backdrop window)
      /\ canvasRef st' = Some (resizedCanvas window (ctx ++ backdrop window)))
  /\ (resultsHaveUndefined results = false ->
      fst (onResults window dateNow results st)
      = handsCompletion window dateNow video results
      /\ detectionResults st' = detectedHands results
      /\ painted st'
         = Some (ctx ++ backdrop window
                     ++ handsPainted window dateNow video results)
      /\ (forall hands handednesses,
            multiHandLandmarks results = Some hands ->
            multiHandedness results = Some handednesses ->
            map (@landmarks N) (detectionResults st') = hands)).
Proof.
  intros Hready.
  rewrite (onResults_ready window dateNow results st ctx video Hready).
  split; [|split].
  - unfold resultsHaveUndefined. split.
    + destruct (multiHandLandmarks results) as [hands|]; [|discriminate].
      destruct (multiHandedness results) as [handednesses|]; [|discriminate].
      intros Hex. apply existsb_exists in Hex. destruct Hex as (lms & Hin & Hu).
      exists hands, handednesses, lms.
      repeat split; try assumption. apply hasUndefined_In, Hu.
    + intros (hands & handednesses & lms & -> & -> & Hin & Hu).
      apply existsb_exists. exists lms. split; [exact Hin|].
      apply hasUndefined_In, Hu.
  - intros ->. cbn [fst snd]. unfold painted. cbn. repeat split.
  - intros ->. cbn [fst snd]. unfold painted. cbn.
    split; [reflexivity|]. split; [reflexivity|]. split; [reflexivity|].
    intros hands handednesses Hl Hh. unfold detectedHands.
    rewrite Hl, Hh. apply mapFrom_landmarks.
Qed.

(** X8.  Past its guards, when the results carry no list of landmarks, no
    list of handedness, or an empty list of hands, [onResults] completes,
    paints the backdrop only, a radial gradient filled over the whole
    window-sized canvas, and empties the stored detection results; hands
    delivered without a handedness list are not drawn. *)
Theorem onResults_without_hands
        (window : Window N) (dateNow : nat -> N) (results : Results N)
        (st : Hook N) (ctx : list (CanvasOp N)) (video : HTMLVideoElement N) :
  readyToDraw st ctx video ->
  multiHandLandmarks results = None
  \/ multiHandedness results = None
  \/ multiHandLandmarks results = Some [] ->
  let canvasWidth := innerWidth window in
  let canvasHeight := innerHeight window in
  onResults window dateNow results st
  = (Normal tt,
     setDetectionResults
       (setCanvas st
          (Some (resizedCanvas window
                   (ctx ++ [ SetFillGradient
                               {| gx0 := div canvasWidth (lit 2);
                                  gy0 := div canvasHeight (lit 2);
                                  gr0 := lit 0;
                                  gx1 := div canvasWidth (lit 2);
                                  gy1 := div canvasHeight (lit 2);
                                  gr1 := div (math_max canvasWidth canvasHeight)
                                             (lit 2);
                                  colorStops :=
                                    [ (lit 0, Rgba (lit 30) (lit 20) (lit 60)
                                                   (lit 0.95));
                                      (lit 1, Rgba (lit 10) (lit 10) (lit 30)
                                                   (lit 0.98)) ] |};
                             FillRect (lit 0) (lit 0)
                                      canvasWidth canvasHeight ]))))
       []).
Proof.
  intros Hready Hnone canvasWidth canvasHeight.
  rewrite (onResults_ready window dateNow results st ctx video Hready).
  assert (Hhands : detectedHands results = []).
  { unfold detectedHands.
    destruct Hnone as [Hl | [Hh | Hl]]; rewrite ?Hl, ?Hh; try reflexivity.
    - destruct (multiHandLandmarks results); reflexivity.
    - destruct (multiHandedness results); reflexivity. }
  assert (Hundef : resultsHaveUndefined results = false).
  { unfold resultsHaveUndefined.
    destruct Hnone as [Hl | [Hh | Hl]]; rewrite ?Hl, ?Hh; try reflexivity.
    - destruct (multiHandLandmarks results); reflexivity.
    - destruct (multiHandedness results); reflexivity. }
  rewrite Hundef. unfold handsPainted, handsCompletion. rewrite Hhands.
  cbn [drawLandmarks forEachFrom opsOf completionOf ret fst snd].
  rewrite app_nil_r. reflexivity.
Qed.

(** [onResults] leaves the handles and flags of the session alone. *)
Lemma onResults_control
      (window : Window N) (dateNow : nat -> N) (results : Results N)
      (st : Hook N) :
  sameControl st (snd (onResults window dateNow results st)).
Proof.
  unfold sameControl, onResults.
  destruct (canvasRef st) as [canvas|]; [|cbn; repeat split].
  destruct (context2d canvas) as [ctx|]; [|cbn; repeat split].
  destruct (videoRef st) as [video|] eqn:Hvideo; [|cbn; repeat split; exact Hvideo].
  destruct (negb (truthy (videoWidth video)) || negb (truthy (videoHeight video)));
    [cbn; repeat split; exact Hvideo|].
  destruct (collectHands results) as [hs|e]; [|cbn; repeat split; exact Hvideo].
  match goal with
  | |- context [drawLandmarks ?d ?h ?a ?b ?c ?e ?l] =>
      destruct (drawLandmarks d h a b c e l) as [c0 ctx2]
  end.
  cbn. repeat split; exact Hvideo.
Qed.

(** X9.  Rendering never touches the session controller: whatever they
    are given and however they end, the detector's callback [onResults]
    and the camera's callback [onFrame] leave the video, detector and
    camera handles, the initialized and streaming flags and the error
    message as they were; and [onFrame] does nothing at all while the
    detector or the video element is missing. *)
Theorem rendering_keeps_control
        (window : Window N) (dateNow : nat -> N) (results : Results N)
        (st : Hook N) :
  sameControl st (snd (onResults window dateNow results st))
  /\ sameControl st (snd (onFrame window dateNow results st))
  /\ (handsRef st = None \/ videoRef st = None ->
      onFrame window dateNow results st = (Normal tt, st)).
Proof.
  split; [apply onResults_control|]. unfold onFrame.
  destruct (handsRef st), (videoRef st); split;
    try apply onResults_control;
    try (intros [Hnone | Hnone]; (discriminate || reflexivity));
    cbn; unfold sameControl; repeat split.
Qed.

End OnResultsReady.

(** ** The session controller over time *)

Section SessionRuns.
Context {N : Type} `{JSNumber N}.


(** X11.  [stopCamera] always ends with no camera handle, the streaming
    flag off and no detection results, and leaves the detector, the
    initialized flag, the elements and the error message (which it does not
    clear) as they were; stopping twice is stopping once. *)
Theorem stopCamera_stops (st : Hook N) :
  cameraRef (stopCamera st) = None
  /\ isStreaming (stopCamera st) = false
  /\ detectionResults (stopCamera st) = []
  /\ handsRef (stopCamera st) = handsRef st
  /\ isInitialized (stopCamera st) = isInitialized st
  /\ videoRef (stopCamera st) = videoRef st
  /\ canvasRef (stopCamera st) = canvasRef st
  /\ error (stopCamera st) = error st
  /\ stopCamera (stopCamera st) = stopCamera st.
Proof.
  unfold stopCamera. destruct (cameraRef st) eqn:Hcam; cbn;
    rewrite ?Hcam; repeat split; assumption.
Qed.


Lemma hookInvariant_mounted (video : HTMLVideoElement N)
      (canvas : HTMLCanvasElement N) :
  hookInvariant (mounted video canvas).
Proof.
  unfold hookInvariant, mounted. cbn.
  repeat split; try discriminate; try congruence.
Qed.

Lemma hookInvariant_control (st st' : Hook N) :
  sameControl st st' -> hookInvariant st -> hookInvariant st'.
Proof.
  intros (_ & Hh & Hc & Hi & Hs & _). unfold hookInvariant.
  rewrite Hh, Hc, Hi, Hs. tauto.
Qed.

Lemma hookInvariant_initialize (detector : Outcome) (st : Hook N) :
  hookInvariant st -> hookInvariant (initializeMediaPipe detector st).
Proof.
  intros (Hs & Hi & Hsi & Hcam & Hhands).
  destruct detector; unfold hookInvariant; cbn.
  - repeat split; try discriminate; try (apply Hs); try reflexivity;
      try exact Hcam.
    intros hands Heq. injection Heq as <-. reflexivity.
  - repeat split; try apply Hs; try apply Hi; try exact Hsi;
      try exact Hcam; exact Hhands.
Qed.

Lemma hookInvariant_startCamera (detector camera : Outcome) (st : Hook N) :
  hookInvariant st -> hookInvariant (startCamera detector camera st).
Proof.
  intros Hinv. unfold startCamera.
  destruct (handsRef st) as [hands|] eqn:Eh;
    [|apply hookInvariant_initialize, Hinv].
  destruct (videoRef st) as [video|];
    [|apply hookInvariant_initialize, Hinv].
  destruct Hinv as (Hs & Hi & Hsi & Hcam & Hhands).
  destruct camera; unfold hookInvariant; cbn.
  - repeat split; try discriminate; try reflexivity; try apply Hi;
      try exact Hhands.
    + intros _. apply Hi. congruence.
    + intros cam Heq. injection Heq as <-. reflexivity.
  - repeat split; try apply Hs; try apply Hi; try exact Hsi;
      try exact Hcam; exact Hhands.
Qed.

Lemma hookInvariant_stopCamera (st : Hook N) :
  hookInvariant st -> hookInvariant (stopCamera st).
Proof.
  intros (Hs & Hi & Hsi & Hcam & Hhands).
  unfold stopCamera, hookInvariant.
  destruct (cameraRef st) eqn:Ec; cbn; rewrite ?Ec;
    repeat split; try discriminate; try congruence; try apply Hi;
    exact Hhands.
Qed.

Lemma hookInvariant_step (st : Hook N) (e : HookEvent N) :
  hookInvariant st -> hookInvariant (hookStep st e).
Proof.
  intros Hinv. destruct e as [d | d c | | w dn r | w dn r]; cbn [hookStep].
  - apply hookInvariant_initialize, Hinv.
  - apply hookInvariant_startCamera, Hinv.
  - apply hookInvariant_stopCamera, Hinv.
  - unfold onFrame. destruct (handsRef st), (videoRef st); try exact Hinv.
    apply (hookInvariant_control st); [apply onResults_control | exact Hinv].
  - apply (hookInvariant_control st); [apply onResults_control | exact Hinv].
Qed.

(** X13.  Whatever sequence of calls reaches the hook after mounting
    (initializations, camera starts, stops, frames and detector results,
    succeeding or failing in any order), the flags agree with the handles:
    the hook is streaming exactly when it holds a camera, initialized
    exactly when it holds a detector, and never streaming without being
    initialized; a camera it holds is the 1280x720 one and a detector it
    holds has the options of lines 109-114. *)
Theorem hook_invariant (events : list (HookEvent N))
        (video : HTMLVideoElement N) (canvas : HTMLCanvasElement N) :
  hookInvariant (runHook events (mounted video canvas)).
Proof.
  unfold runHook.
  generalize (hookInvariant_mounted video canvas).
  generalize (mounted video canvas) as st.
  induction events as [|e rest IH]; intros st Hinv; [exact Hinv|].
  cbn [fold_left]. apply IH, hookInvariant_step, Hinv.
Qed.

(** X14.  Stopping the camera does not silence the detector: a result it
    delivers after [stopCamera], with canvas and video still there and no
    [undefined] landmark, is stored and drawn like any other, so the
    detection results that [stopCamera] emptied fill up again, and the
    canvas is painted as far as the drawing gets, while the streaming flag
    stays off and no camera is held. *)
Theorem result_after_stopCamera
        (window : Window N) (dateNow : nat -> N) (results : Results N)
        (st : Hook N) (ctx : list (CanvasOp N)) (video : HTMLVideoElement N) :
  readyToDraw st ctx video ->
  resultsHaveUndefined results = false ->
  let st' := snd (onResults window dateNow results (stopCamera st)) in
  detectionResults (stopCamera st) = []
  /\ fst (onResults window dateNow results (stopCamera st))
     = handsCompletion window dateNow video results
  /\ detectionResults st' = detectedHands results
  /\ painted st'
     = Some (ctx ++ backdrop window
                 ++ handsPainted window dateNow video results)
  /\ isStreaming st' = false
  /\ cameraRef st' = None.
Proof.
  intros Hready Hdefined.
  assert (Hready' : readyToDraw (stopCamera st) ctx video).
  { destruct Hready as (Hctx & Hvideo & Hw & Hh).
    unfold readyToDraw, painted, stopCamera in *.
    destruct (cameraRef st); cbn; repeat split; assumption. }
  rewrite (onResults_ready window dateNow results (stopCamera st) ctx video
             Hready'), Hdefined.
  unfold stopCamera, painted.
  destruct (cameraRef st) eqn:Ec; cbn; repeat split. exact Ec.
Qed.

End SessionRuns.

(** ** The component *)

Section ComponentTheorems.
Context {N : Type} `{JSNumber N}.

Lemma trackerInvariant_step (t : Tracker N) (e : TrackerEvent N) :
  trackerInvariant t -> trackerInvariant (trackerStep t e).
Proof.
  intros (Hhook & Hdialog & Hperm).
  destruct e as [d | d c | | w dn r | ]; cbn [trackerStep].
  - split; [apply hookInvariant_initialize, Hhook|].
    cbn. assert (Hs : isStreaming (initializeMediaPipe d (hook t))
                      = isStreaming (hook t)) by (destruct d; reflexivity).
    rewrite Hs. split; assumption.
  - destruct (showPermissionDialog t) eqn:Eshow;
      [|split; [exact Hhook | split; [rewrite Eshow; discriminate | exact Hperm]]].
    split; [apply hookInvariant_startCamera, Hhook|].
    cbn. split; [discriminate | reflexivity].
  - destruct (showPermissionDialog t) eqn:Eshow;
      [|split; [exact Hhook | split; [rewrite Eshow; discriminate | exact Hperm]]].
    split; [exact Hhook|]. cbn. split; [discriminate|].
    destruct (Hdialog eq_refl) as [_ Hs]. rewrite Hs. discriminate.
  - pose proof (onResults_control w dn r (hook t)) as Hsame.
    split; [apply (hookInvariant_control (hook t)); assumption|].
    destruct Hsame as (_ & _ & _ & _ & Hs & _). cbn. rewrite Hs.
    split; assumption.
  - split; [apply hookInvariant_stopCamera, Hhook|].
    cbn. split; [|discriminate].
    intros Hshow. split; [apply Hdialog, Hshow | reflexivity].
Qed.

Lemma trackerInvariant_mount (video : HTMLVideoElement N)
      (canvas : HTMLCanvasElement N) :
  trackerInvariant (mountTracker video canvas).
Proof.
  split; [apply hookInvariant_mounted|].
  cbn. split; [intros _; split; reflexivity | discriminate].
Qed.

Lemma trackerInvariant_run (events : list (TrackerEvent N)) (t : Tracker N) :
  trackerInvariant t -> trackerInvariant (runTracker events t).
Proof.
  unfold runTracker. revert t.
  induction events as [|e rest IH]; intros t Hinv; [exact Hinv|].
  cbn [fold_left]. apply IH, trackerInvariant_step, Hinv.
Qed.

(** X15.  Whatever happens to the mounted component (mount effect,
    clicks, detector results, cleanup, in any order and with any outcome),
    it shows at most one of the permission dialog, the waiting overlay and
    the no-hand guide; the dialog is only up while no permission was given
    and nothing streams, and the hook only streams after the user allowed
    the camera. *)
Theorem tracker_shows_one_overlay
        (events : list (TrackerEvent N))
        (video : HTMLVideoElement N) (canvas : HTMLCanvasElement N) :
  let t := runTracker events (mountTracker video canvas) in
  (overlaysShown (render t) <= 1)%nat
  /\ (showPermissionDialog t = true ->
      hasPermission t = false /\ isStreaming (hook t) = false)
  /\ (isStreaming (hook t) = true -> hasPermission t = true).
Proof.
  intros t.
  destruct (trackerInvariant_run events _ (trackerInvariant_mount video canvas))
    as (_ & Hdialog & Hperm).
  fold t in Hdialog, Hperm. split; [|split; assumption].
  unfold overlaysShown, render. cbn.
  destruct (showPermissionDialog t) eqn:Eshow.
  - destruct (Hdialog eq_refl) as [Hp Hs]. rewrite Hp, Hs. cbn. lia.
  - destruct (isStreaming (hook t)) eqn:Es.
    + rewrite (Hperm eq_refl). cbn.
      destruct (Nat.eqb (List.length (detectionResults (hook t))) 0); lia.
    + rewrite orb_true_r. cbn. lia.
Qed.

(** Once the dialog is gone nothing brings it back, the permission flag is
    settled, a hook that is not streaming stays so, and one that is
    initialized stays so. *)
Lemma dismissed_is_final (events : list (TrackerEvent N)) (t : Tracker N) :
  showPermissionDialog t = false ->
  showPermissionDialog (runTracker events t) = false
  /\ hasPermission (runTracker events t) = hasPermission t
  /\ (isStreaming (hook t) = false ->
      isStreaming (hook (runTracker events t)) = false)
  /\ (isInitialized (hook t) = true ->
      isInitialized (hook (runTracker events t)) = true).
Proof.
  unfold runTracker. revert t.
  induction events as [|e rest IH]; intros t Hshow; [repeat split; auto|].
  cbn [fold_left].
  assert (Hstep : showPermissionDialog (trackerStep t e) = false
                  /\ hasPermission (trackerStep t e) = hasPermission t
                  /\ (isStreaming (hook t) = false ->
                      isStreaming (hook (trackerStep t e)) = false)
                  /\ (isInitialized (hook t) = true ->
                      isInitialized (hook (trackerStep t e)) = true)).
  { destruct e as [d | d c | | w dn r | ]; cbn [trackerStep];
      rewrite ?Hshow; cbn; try (repeat split; auto; fail).
    - repeat split; auto; destruct d; cbn; auto.
    - destruct (onResults_control w dn r (hook t))
        as (_ & _ & _ & Hi & Hs & _).
      rewrite Hi, Hs. repeat split; auto.
    - repeat split; auto. unfold stopCamera.
      destruct (cameraRef (hook t)); cbn; auto. }
  destruct Hstep as (Hshow1 & Hperm1 & Hs1 & Hi1).
  destruct (IH (trackerStep t e) Hshow1) as (Hshow2 & Hperm2 & Hs2 & Hi2).
  repeat split; auto. congruence.
Qed.

(** X16.  Declining is final, and so is a camera that fails to start: from
    the dialog, with nothing streaming, after a click on the deny button or
    a click on the allow button whose camera start throws, nothing that can
    still happen makes the hook stream; the dialog stays closed and the
    waiting overlay stays up. *)
Theorem no_camera_after_refusal
        (t : Tracker N) (e : TrackerEvent N) (events : list (TrackerEvent N)) :
  showPermissionDialog t = true ->
  isStreaming (hook t) = false ->
  e = ClickDeny \/ (exists detector, e = ClickAllow detector Throws) ->
  let t' := runTracker events (trackerStep t e) in
  isStreaming (hook t') = false
  /\ permissionDialog (render t') = false
  /\ waitingOverlay (render t') <> None.
Proof.
  intros Hshow Hstream He t'.
  assert (Hafter : showPermissionDialog (trackerStep t e) = false
                   /\ isStreaming (hook (trackerStep t e)) = false).
  { destruct He as [-> | (d & ->)]; cbn [trackerStep]; rewrite Hshow; cbn.
    - split; [reflexivity | exact Hstream].
    - split; [reflexivity|]. unfold startCamera.
      destruct (handsRef (hook t)), (videoRef (hook t)), d; exact Hstream. }
  destruct Hafter as [Hshow1 Hs1].
  destruct (dismissed_is_final events _ Hshow1) as (Hshow2 & _ & Hs2 & _).
  specialize (Hs2 Hs1). fold t' in Hshow2, Hs2.
  split; [exact Hs2|]. unfold render. cbn.
  rewrite Hshow2, Hs2, orb_true_r. cbn. split; [reflexivity | discriminate].
Qed.

(** X17.  Allowing the camera while the detector is missing never starts
    it: the click initializes the detector and returns, the dialog is gone,
    and whatever happens afterwards the hook does not stream and the
    component keeps showing the "starting the camera" overlay. *)
Theorem allow_before_initialized_never_streams
        (t : Tracker N) (camera : Outcome) (events : list (TrackerEvent N)) :
  showPermissionDialog t = true ->
  isStreaming (hook t) = false ->
  handsRef (hook t) = None ->
  let t' := runTracker events (trackerStep t (ClickAllow Succeeds camera)) in
  isStreaming (hook t') = false
  /\ permissionDialog (render t') = false
  /\ waitingOverlay (render t') = Some StartingCamera.
Proof.
  intros Hshow Hstream Hhands t'.
  assert (Hafter :
            let t1 := trackerStep t (ClickAllow Succeeds camera) in
            showPermissionDialog t1 = false /\ hasPermission t1 = true
            /\ isStreaming (hook t1) = false
            /\ isInitialized (hook t1) = true).
  { cbn [trackerStep]. rewrite Hshow. cbn. unfold startCamera.
    rewrite Hhands. cbn. repeat split. exact Hstream. }
  destruct Hafter as (Hshow1 & Hperm1 & Hs1 & Hi1).
  destruct (dismissed_is_final events _ Hshow1) as (Hshow2 & Hperm2 & Hs2 & Hi2).
  specialize (Hs2 Hs1). specialize (Hi2 Hi1). rewrite Hperm1 in Hperm2.
  fold t' in Hshow2, Hperm2, Hs2, Hi2.
  split; [exact Hs2|]. unfold render. cbn.
  rewrite Hshow2, Hperm2, Hs2, Hi2. cbn. split; reflexivity.
Qed.

End ComponentTheorems.

(** ** More on the fit transform, in exact arithmetic *)

Section FitMore.
Local Open Scope Q_scope.

(** X18.  Whatever the sizes, the centre of the video frame lands on the
    centre of the canvas: on the fitted axis because the frame spans the
    canvas, on the other because the offset is half the difference. *)
Theorem fit_centres_video (vw vh cw ch : Q) :
  toCanvasX (fitTransform vw vh cw ch) (1 # 2) == cw / 2
  /\ toCanvasY (fitTransform vw vh cw ch) (1 # 2) == ch / 2.
Proof.
  unfold toCanvasX, toCanvasY, fitTransform.
  cbn [lit add sub mul div gtb Exact].
  destruct (ExactNum.gtb (vw / vh) (cw / ch));
    cbn [scaleX scaleY offsetX offsetY].
  - generalize (ch * (vw / vh)) as scaled. intros scaled. split; field.
  - generalize (cw / (vw / vh)) as scaled. intros scaled. split; field.
Qed.

Lemma exact_gtb_comp (a a' b b' : Q) :
  a == a' -> b == b' -> ExactNum.gtb a b = ExactNum.gtb a' b'.
Proof.
  intros Ha Hb. unfold ExactNum.gtb. rewrite (Qleb_comp a a' Ha b b' Hb).
  reflexivity.
Qed.

(** X19.  The transform depends on the video only through its aspect
    ratio: scaling both video dimensions by the same non-zero factor (a
    camera delivering 640x360 instead of 1280x720) gives the same scales
    and offsets. *)
Theorem fit_depends_on_aspect_only (k vw vh cw ch : Q) :
  ~ k == 0 ->
  let t := fitTransform vw vh cw ch in
  let t' := fitTransform (k * vw) (k * vh) cw ch in
  scaleX t' == scaleX t /\ scaleY t' == scaleY t
  /\ offsetX t' == offsetX t /\ offsetY t' == offsetY t.
Proof.
  intros Hk.
  assert (Ha : k * vw / (k * vh) == vw / vh).
  { destruct (Qeq_dec vh 0) as [Hz | Hnz].
    - unfold Qdiv. rewrite Hz, Qmult_0_r. change (/ 0) with 0. ring.
    - field. split; assumption. }
  unfold fitTransform. cbn [lit add sub mul div gtb Exact].
  rewrite (exact_gtb_comp (k * vw / (k * vh)) (vw / vh) (cw / ch) (cw / ch) Ha
             (Qeq_refl _)).
  destruct (ExactNum.gtb (vw / vh) (cw / ch));
    cbn [scaleX scaleY offsetX offsetY]; rewrite Ha; repeat split; reflexivity.
Qed.

Lemma fit_depends_on_aspect_only_witness :
  ~ (1 # 2) == 0
  /\ scaleX (fitTransform ((1 # 2) * 1280) ((1 # 2) * 720) 1024 768)
     == scaleX (fitTransform 1280 720 1024 768).
Proof.
  assert (Hk : ~ (1 # 2) == 0) by discriminate.
  split; [exact Hk|].
  exact (proj1 (fit_depends_on_aspect_only (1 # 2) 1280 720 1024 768 Hk)).
Defined.

End FitMore.

(** ** Instances of the statements above *)

Section Instances.
Local Open Scope Q_scope.

Lemma drawDiscs_paints_present_landmarks_witness :
  (hasUndefined (landmarks handWithHoles) = false
   /\ forall l, In (Elem l) (landmarks handWithHoles) ->
                0 <= discRadius l 1024 768)
  /\ fst (drawDiscs handWithHoles 0 0 1024 768 0 0 []) = Normal tt.
Proof.
  assert (Hradius : forall l, In (Elem l) (landmarks handWithHoles) ->
                              0 <= discRadius l 1024 768).
  { intros l Hin. cbn in Hin.
    repeat (destruct Hin as [Hin | Hin];
            [try discriminate; injection Hin as <-; discriminate|]).
    destruct Hin. }
  split; [split; [reflexivity | exact Hradius]|].
  exact (f_equal fst
           (drawDiscs_paints_present_landmarks handWithHoles 0 0 1024 768 0 0 []
              eq_refl Hradius)).
Defined.

Lemma small_fit_paints_no_label_witness :
  (Qmin 320 240 <= 400 /\ - (2 # 3) <= - (1 # 2) <= 0)
  /\ List.length
       (opsOf (drawDisc {| x := 0.5; y := 0.5; z := - (1 # 2);
                           visibility := Some 0.8 |}
                        3 0 0 320 240 0 0)) = 6%nat.
Proof.
  split; [split; [|split]; discriminate|].
  refine (proj2 (proj2 (small_fit_paints_no_label
                          {| x := 0.5; y := 0.5; z := - (1 # 2);
                             visibility := Some 0.8 |}
                          3 0 0 320 240 0 0 _ _ _))).
  - discriminate.
  - split; discriminate.
  - intros v Hv. injection Hv as <-. split; discriminate.
Defined.

Lemma large_fit_paints_label_witness :
  (400 < Qmin 1366 768 /\ 0 <= 0)
  /\ List.length
       (opsOf (drawDisc {| x := 0.5; y := 0.5; z := 0; visibility := None |}
                        3 0 0 1366 768 0 0)) = 13%nat.
Proof.
  split; [split; [reflexivity | discriminate]|].
  refine (proj2 (large_fit_paints_label
                   {| x := 0.5; y := 0.5; z := 0; visibility := None |}
                   3 0 0 1366 768 0 0 _ _ _)).
  - reflexivity.
  - discriminate.
  - reflexivity.
Defined.

Lemma drawLandmarks_hues_in_range_witness :
  (forall handIndex : nat, 0 <= inject_Z (Z.of_nat handIndex) * 1000)
  /\ Forall huesInRange
       (opsOf (drawLandmarks (fun i => inject_Z (Z.of_nat i) * 1000)
                             [handWithHoles] 1024 768 0 0)).
Proof.
  assert (Hclock : forall handIndex : nat,
             0 <= inject_Z (Z.of_nat handIndex) * 1000).
  { intros i. apply Qmult_le_0_compat; [|discriminate].
    change 0 with (inject_Z 0). rewrite <- Zle_Qle. lia. }
  split; [exact Hclock|].
  exact (drawLandmarks_hues_in_range _ [handWithHoles] 1024 768 0 0 Hclock).
Defined.

Lemma streaming_readyToDraw : readyToDraw streaming [] video1280x720.
Proof. repeat split. Qed.

Lemma onResults_stores_before_drawing_witness :
  (readyToDraw streaming [] video1280x720
   /\ resultsHaveUndefined oneHand = false)
  /\ detectionResults (snd (onResults window1024x768 (fun _ => 0) oneHand
                                      streaming))
     = detectedHands oneHand.
Proof.
  split; [split; [exact streaming_readyToDraw | reflexivity]|].
  exact (proj1 (proj2 (proj2 (proj2 (onResults_stores_before_drawing
                                       window1024x768 (fun _ => 0) oneHand
                                       streaming [] video1280x720
                                       streaming_readyToDraw))
                               eq_refl))).
Defined.

Lemma onResults_without_hands_witness :
  (readyToDraw streaming [] video1280x720
   /\ multiHandLandmarks noHands = None)
  /\ fst (onResults window1024x768 (fun _ => 0) noHands streaming) = Normal tt.
Proof.
  split; [split; [exact streaming_readyToDraw | reflexivity]|].
  exact (f_equal fst
           (onResults_without_hands window1024x768 (fun _ => 0) noHands
              streaming [] video1280x720 streaming_readyToDraw
              (or_introl eq_refl))).
Defined.


Lemma result_after_stopCamera_witness :
  (readyToDraw streaming [] video1280x720
   /\ resultsHaveUndefined oneHand = false)
  /\ detectionResults
       (snd (onResults window1024x768 (fun _ => 0) oneHand
                       (stopCamera streaming)))
     = detectedHands oneHand.
Proof.
  split; [split; [exact streaming_readyToDraw | reflexivity]|].
  exact (proj1 (proj2 (proj2 (result_after_stopCamera
                                window1024x768 (fun _ => 0) oneHand streaming
                                [] video1280x720 streaming_readyToDraw
                                eq_refl)))).
Defined.

Lemma no_camera_after_refusal_witness :
  (showPermissionDialog (mountTracker video1280x720 blankCanvas) = true
   /\ isStreaming (hook (mountTracker video1280x720 blankCanvas)) = false)
  /\ isStreaming
       (hook (runTracker [MountEffect Succeeds; Cleanup]
                (trackerStep (mountTracker video1280x720 blankCanvas)
                             ClickDeny))) = false.
Proof.
  split; [split; reflexivity|].
  exact (proj1 (no_camera_after_refusal
                  (mountTracker video1280x720 blankCanvas) ClickDeny
                  [MountEffect Succeeds; Cleanup] eq_refl eq_refl
                  (or_introl eq_refl))).
Defined.

Lemma allow_before_initialized_never_streams_witness :
  (showPermissionDialog (mountTracker video1280x720 blankCanvas) = true
   /\ isStreaming (hook (mountTracker video1280x720 blankCanvas)) = false
   /\ handsRef (hook (mountTracker video1280x720 blankCanvas)) = None)
  /\ waitingOverlay
       (render (runTracker [MountEffect Succeeds]
                  (trackerStep (mountTracker video1280x720 blankCanvas)
                               (ClickAllow Succeeds Succeeds))))
     = Some StartingCamera.
Proof.
  split; [repeat split|].
  exact (proj2 (proj2 (allow_before_initialized_never_streams
                         (mountTracker video1280x720 blankCanvas) Succeeds
                         [MountEffect Succeeds] eq_refl eq_refl eq_refl))).
Defined.

End Instances.

(** ** The fit transform on a degenerate canvas, on doubles *)

Section FitDegenerate.
Local Open Scope float_scope.

Lemma SFeqb_self_false (s : spec_float) : SFeqb s s = false -> s = S754_nan.
Proof.
  unfold SFeqb. destruct s as [b | b | | b m e]; cbn; try discriminate;
    try reflexivity.
  - destruct b; discriminate.
  - rewrite Z.compare_refl, Pos.compare_cont_refl. destruct b; discriminate.
Qed.

Lemma SFltb_infinity (s : spec_float) : SFltb (S754_infinity false) s = false.
Proof. destruct s as [b | b | | b m e]; try destruct b; reflexivity. Qed.

(** X20.  On doubles, a canvas whose aspect ratio is not a finite number
    (a window of zero height makes it [+Infinity], a window of zero width
    and height makes it NaN; neither is excluded by the guards of
    [onResults]) fails the test of line 51 whatever the video, so the
    width-fit branch runs. *)
Theorem fit_degenerate_canvas (vw vh cw ch : float) :
  cw / ch = infinity \/ is_nan (cw / ch) = true ->
  fitsToHeight vw vh cw ch = false
  /\ fitTransform vw vh cw ch
     = {| scaleX := cw; scaleY := cw / (vw / vh);
          offsetX := 0; offsetY := (ch - cw / (vw / vh)) / 2 |}.
Proof.
  intros Hdegenerate.
  assert (Htest : Double.gtb (vw / vh) (cw / ch) = false).
  { unfold Double.gtb. rewrite FloatAxioms.ltb_spec.
    destruct Hdegenerate as [Hinf | Hnan].
    - rewrite Hinf. apply SFltb_infinity.
    - unfold is_nan in Hnan. apply negb_true_iff in Hnan.
      rewrite FloatAxioms.eqb_spec in Hnan.
      rewrite (SFeqb_self_false _ Hnan). reflexivity. }
  unfold fitsToHeight, fitTransform. cbn [gtb div sub mul lit Binary64].
  rewrite Htest. split; reflexivity.
Qed.

Lemma fit_degenerate_canvas_witness :
  (1024 / 0 = infinity \/ is_nan (1024 / 0) = true)
  /\ fitTransform 1280 720 1024 0
     = {| scaleX := 1024; scaleY := 576; offsetX := 0; offsetY := -288 |}.
Proof.
  assert (Hdegenerate : 1024 / 0 = infinity \/ is_nan (1024 / 0) = true)
    by (left; reflexivity).
  split; [exact Hdegenerate|].
  refine (eq_trans (proj2 (fit_degenerate_canvas 1280 720 1024 0 Hdegenerate)) _).
  reflexivity.
Defined.

End FitDegenerate.
